(** * erda-ui: the contractive filter bar and the project iteration list

    A shallow embedding of two presentation components,
    - [shell/app/common/components/contractive-filter/index.tsx] (module
      [ContractiveFilter] below), and
    - the project iteration list page (module [IterationPage] below),
    followed by the properties established for them.

    Conventions of the embedding.
    - A JavaScript value that travels through the value map is a [Js.jsval].
      The numbers that travel there, and the [showIndex] of a condition, are
      integers; where the code does arithmetic on them, the rounding of the
      sum to a double is written out ([Js.roundToDouble]).  The progress
      column of the iteration list divides, and is computed in binary64
      ([Double], over the standard library's [SpecFloat]).
    - A JavaScript object used as a dictionary (the value map, the active
      map, a fetch payload) is a [gmap string _]; a key bound to [undefined]
      is a key bound to [VUndef], a missing key reads as [VUndef].
    - A component is a record of its state cells; an event handler is a
      function from the state to the next state and the list of calls it
      makes on its callbacks, in call order.
    - Primitives of the language or of libraries whose text is not part of
      the sources ([String.prototype.toLowerCase], [transformDuration],
      [i18n.t], unary [+] on a string) are section variables. *)

From Stdlib Require Import ZArith String Ascii List Bool Lia.
From Stdlib Require Import Floats.SpecFloat.
From stdpp Require Import base option list gmap strings pretty.
Import ListNotations.

#[local] Open Scope string_scope.
#[local] Open Scope list_scope.
#[local] Set Warnings "-register-all".

(** ** JavaScript values *)

Module Js.

Inductive jsval : Type :=
| VUndef
| VNull
| VStr (s : string)
| VNum (n : Z)
| VArr (l : list jsval)
| VObj (o : list (string * jsval)).

(** [ToBoolean]: [undefined], [null], the empty string and [0] are falsy;
    every array and object is truthy. *)
Definition truthy (v : jsval) : bool :=
  match v with
  | VUndef | VNull => false
  | VStr s => negb (String.eqb s "")
  | VNum n => negb (Z.eqb n 0)
  | VArr _ | VObj _ => true
  end.

(** lodash [isString], [isNumber], [isArray]. *)
Definition isString (v : jsval) : bool :=
  match v with VStr _ => true | _ => false end.

Definition isNumber (v : jsval) : bool :=
  match v with VNum _ => true | _ => false end.

Definition isArray (v : jsval) : bool :=
  match v with VArr _ => true | _ => false end.

(** [a === b] where one side is a primitive.  Arrays and objects compare by
    identity and are never equal to a primitive; on strings and integers
    [===] and the SameValueZero of [Array.prototype.includes] agree. *)
Definition strictEq (a b : jsval) : bool :=
  match a, b with
  | VUndef, VUndef => true
  | VNull, VNull => true
  | VStr s, VStr t => String.eqb s t
  | VNum n, VNum m => Z.eqb n m
  | _, _ => false
  end.

(** [arr.includes(x)] *)
Definition arrIncludes (arr : list jsval) (x : jsval) : bool :=
  existsb (fun v => strictEq v x) arr.

(** [a ?? b] *)
Definition nullish (a b : jsval) : jsval :=
  match a with
  | VUndef | VNull => b
  | _ => a
  end.

(** [obj[k]] on a dictionary: a missing key reads as [undefined]. *)
Definition getProp (obj : gmap string jsval) (k : string) : jsval :=
  default VUndef (obj !! k).

(** [obj?.[k]] *)
Definition optGetProp (obj : option (gmap string jsval)) (k : string) : jsval :=
  match obj with
  | Some m => getProp m k
  | None => VUndef
  end.

(** [v?.[i]] for a numeric index [i]. *)
Definition optIndex (v : jsval) (i : nat) : jsval :=
  match v with
  | VUndef | VNull => VUndef
  | VArr l => nth i l VUndef
  | VStr s => match String.get i s with
              | Some c => VStr (String c EmptyString)
              | None => VUndef
              end
  | VNum _ => VUndef
  | VObj o => default VUndef (snd <$> List.find (fun kv => String.eqb (fst kv) (pretty i)) o)
  end.

(** [s.includes(sub)] on strings. *)
Fixpoint strIncludes (s sub : string) : bool :=
  String.prefix sub s ||
  match s with
  | EmptyString => false
  | String _ s' => strIncludes s' sub
  end.

(** [arr.slice(0, e)]: a negative [e] counts from the end of the array. *)
Definition slice0 {A : Type} (arr : list A) (e : Z) : list A :=
  if (e <? 0)%Z
  then firstn (Z.to_nat (Z.of_nat (length arr) + e)) arr
  else firstn (Z.to_nat e) arr.

(** [arr[k]] where [arr] is an array and [k] a string.  The property read
    reaches an element exactly when [k] is the decimal numeral of an index
    below the length.  Any other own or inherited property of an array
    ([length], the methods of [Array.prototype]) is a number or a function
    and carries none of the fields the callers below go on to read, so such
    a read is not distinguished from a missing property. *)
Fixpoint arrayGetFrom {A : Type} (i : nat) (arr : list A) (k : string) : option A :=
  match arr with
  | [] => None
  | x :: arr' => if String.eqb (pretty i) k then Some x else arrayGetFrom (S i) arr' k
  end.

Definition arrayGet {A : Type} (arr : list A) (k : string) : option A :=
  arrayGetFrom 0 arr k.

(** The double nearest to an integer [z].  An integer of magnitude up to
    2^53 is a double.  A longer one keeps its 53 leading bits: it is rounded
    to a multiple of [ulp], to the nearest one, and to the one with the even
    significand when it lies half-way.  (An integer of magnitude 2^1024 or
    more would round to an infinity; none arises where this is used, on the
    sum of a double and 1.) *)
Definition roundToDouble (z : Z) : Z :=
  if (Z.abs z <=? 2 ^ 53)%Z then z
  else
    let ulp := (2 ^ (Z.log2 (Z.abs z) - 52))%Z in
    let q := (Z.abs z / ulp)%Z in
    let r := (Z.abs z mod ulp)%Z in
    let q' :=
      if (ulp <? 2 * r)%Z || ((2 * r =? ulp)%Z && Z.odd q) then (q + 1)%Z else q in
    (Z.sgn z * (q' * ulp))%Z.

(** [x + 1] on a number that holds an integer. *)
Definition plus1 (x : Z) : Z := roundToDouble (x + 1).

(** [Number.MAX_SAFE_INTEGER], and the greatest length [Array(length)]
    accepts. *)
Definition MAX_SAFE_INTEGER : Z := 9007199254740991.
Definition MAX_ARRAY_LENGTH : Z := 4294967295.

End Js.

(** ** Binary64 arithmetic

    The operations of JavaScript numbers the progress column uses, over the
    standard library's specification of IEEE 754 ([prec = 53],
    [emax = 1024]). *)

Module Double.

Definition ofZ (z : Z) : spec_float := binary_normalize 53 1024 z 0 false.

Definition add : spec_float -> spec_float -> spec_float := SFadd 53 1024.
Definition mul : spec_float -> spec_float -> spec_float := SFmul 53 1024.
Definition div : spec_float -> spec_float -> spec_float := SFdiv 53 1024.

(** The integer a finite double holds, when its value is one. *)
Definition toZ (x : spec_float) : Z :=
  match x with
  | S754_finite s m e => cond_Zopp s (Z.shiftl (Z.pos m) e)
  | _ => 0%Z
  end.

(** [ToBoolean] on a number: [0], [-0] and [NaN] are falsy. *)
Definition toBoolean (x : spec_float) : bool :=
  match x with
  | S754_zero _ | S754_nan => false
  | _ => true
  end.

(** The magnitude [m * 2^e] of a finite double as a fraction [p / q]. *)
Definition magnitude (m : positive) (e : Z) : Z * Z :=
  if (0 <=? e)%Z then (Z.pos m * 2 ^ e, 1)%Z else (Z.pos m, 2 ^ (- e))%Z.

(** What [x.toFixed(1)] returns: the decimal numeral with one fraction
    digit that stands for [tenths / 10], with a minus sign when [negative];
    or, for [NaN], an infinity and a magnitude of 10^21 or more, the text
    [String(x)]. *)
Inductive Fixed1 : Type :=
| FixedTenths (negative : bool) (tenths : Z)
| FixedToString (x : spec_float).

(** [Number.prototype.toFixed] with one fraction digit: of the magnitude
    [p / q], the integer [n] for which [n / 10 - p / q] is as close to zero
    as possible, and the larger [n] if there are two. *)
Definition toFixed1 (x : spec_float) : Fixed1 :=
  match x with
  | S754_zero _ => FixedTenths false 0
  | S754_finite s m e =>
      let '(p, q) := magnitude m e in
      if (10 ^ 21 * q <=? p)%Z then FixedToString x
      else FixedTenths s ((20 * p + q) / (2 * q))
  | _ => FixedToString x
  end.

(** Unary [+] on the text [toFixed] returned: the double nearest to
    [tenths / 10]; [String(x)] reads back as [x]. *)
Definition unaryPlus (f : Fixed1) : spec_float :=
  match f with
  | FixedTenths s (Z.pos n) => div (S754_finite s n 0) (ofZ 10)
  | FixedTenths s _ => S754_zero s
  | FixedToString x => x
  end.

End Double.

Import Js.

(** ** The contractive filter bar *)

Module ContractiveFilter.

(** [interface Option].  [value] is a string or a number; a [children] key
    bound to [undefined] behaves as an empty list in every function below
    and is modelled as [Some []]. *)
Inductive Option : Type := mkOption {
  label : string;
  value : jsval;
  icon : option string;
  children : option (list Option)
}.

(** [{ ...item, children: cs }] *)
Definition withChildren (item : Option) (cs : list Option) : Option :=
  mkOption (label item) (value item) (icon item) (Some cs).

Inductive ConditionType : Type :=
| select | input | dateRange | rangePicker | memberSelector | timespanRange
| custom (name : string).

Definition ConditionType_eqb (a b : ConditionType) : bool :=
  match a, b with
  | select, select | input, input | dateRange, dateRange
  | rangePicker, rangePicker | memberSelector, memberSelector
  | timespanRange, timespanRange => true
  | custom n, custom m => String.eqb n m
  | _, _ => false
  end.

(** [ICondition<T>], the fields the functions below read.  [fixed] keeps the
    three cases the code tells apart ([undefined], [true], [false]);
    [required] is only ever used as a condition; [mode] is
    [customProps.mode]. *)
Module ICondition.
Record t : Type := mk {
  key : string;
  label : string;
  type : ConditionType;
  split : bool;
  fixed : option bool;
  showIndex : option Z;
  options : option (list Option);
  firstShowLength : option Z;
  required : bool;
  mode : option string
}.
End ICondition.

(** What a filter item does when the user acts on it: the calls on the
    callbacks it got through [IFilterItemProps], and [message.error]. *)
Inductive ItemEvent : Type :=
| ItemChange (key : string) (value : jsval) (forceChange : bool)
| ItemVisibleChange (visible : bool)
| ItemQuickOperation (key : string) (value : jsval)
| MessageError (content : string).

Section Search.

(** [String.prototype.toLowerCase] *)
Variable toLowerCase : string -> string.

Definition filterMatch (v f : string) : bool :=
  strIncludes (toLowerCase v) (toLowerCase f).

(** [getSelectOptions]: the two [forEach] loops push onto their arrays. *)
Definition getSelectOptions (options : list Option) (filterKey : option string)
  : list Option :=
  match filterKey with
  | None => options
  | Some f =>
      if String.eqb f "" then options else
      fold_left
        (fun useableOptions item =>
           match children item with
           | Some cs =>
               let pushed :=
                 fold_left
                   (fun acc cItem =>
                      if filterMatch (label cItem) f then acc ++ [cItem] else acc)
                   cs [] in
               let curOp := withChildren item pushed in
               if negb (Nat.eqb (length pushed) 0)
               then useableOptions ++ [curOp]
               else useableOptions
           | None =>
               if filterMatch (label item) f
               then useableOptions ++ [item]
               else useableOptions
           end)
        options []
  end.

(** The same result in the words of the specification: an option without
    children is kept when its label matches, an option with children when
    one of its children matches, and then with the matching children only. *)
Definition keepOption (f : string) (o : Option) : bool :=
  match children o with
  | Some cs => existsb (fun c => filterMatch (label c) f) cs
  | None => filterMatch (label o) f
  end.

Definition narrowOption (f : string) (o : Option) : Option :=
  match children o with
  | Some cs => withChildren o (List.filter (fun c => filterMatch (label c) f) cs)
  | None => o
  end.

Definition selectOptionsSpec (f : string) (options : list Option) : list Option :=
  List.map (narrowOption f) (List.filter (keepOption f) options).

End Search.

(** *** [SelectFilterItem] *)

Module SelectFilterItem.

(** The two state cells of the component. *)
Record SelectState : Type := mkSelectState {
  filterMap : gmap string string;
  hasMore : bool
}.

(** What the dropdown shows for one element of [useOptions]: nothing for an
    option whose [children] is empty, a [GroupOpt] for one with children,
    an [OptionItem] otherwise. *)
Inductive OptionNode : Type :=
| NullNode
| GroupOptNode (option : Option) (firstShowLength : Z)
| OptionItemNode (option : Option).

(** The parts of the overlay menu the results below are about: the
    "n items selected" entry with its "Clear selected" link (the events a
    click on the link raises, when the link is there), the option
    container, and the "load more" control. *)
Record SelectInfo : Type := mkSelectInfo {
  clearSelected : option (list ItemEvent)
}.

Record Menu : Type := mkMenu {
  selectInfo : option SelectInfo;
  optionNodes : list OptionNode;
  loadMore : bool
}.

(** [options?.length || 0] *)
Definition optionsLength (itemData : ICondition.t) : Z :=
  match ICondition.options itemData with
  | Some l => Z.of_nat (length l)
  | None => 0
  end.

(** [firstShowLength = 200] in the destructuring of [itemData]. *)
Definition firstShowLength (itemData : ICondition.t) : Z :=
  default 200%Z (ICondition.firstShowLength itemData).

(** The initial value of [hasMore]:
    [itemData.firstShowLength ? (options?.length || 0) > firstShowLength : false] *)
Definition initialHasMore (itemData : ICondition.t) : bool :=
  match ICondition.firstShowLength itemData with
  | Some n => if truthy (VNum n) then (optionsLength itemData >? firstShowLength itemData)%Z
              else false
  | None => false
  end.

Definition initialState (itemData : ICondition.t) : SelectState :=
  mkSelectState ∅ (initialHasMore itemData).

(** [_value]: [None] stands for a truthy value that is neither a string, a
    number nor an array, on which the [includes] calls below throw. *)
Definition _value (value : jsval) : option (list jsval) :=
  if truthy value then
    if isString value || isNumber value then Some [value]
    else match value with
         | VArr l => Some l
         | _ => None
         end
  else Some [].

(** [const { mode = 'multiple' } = customProps || {}; mode === 'single'] *)
Definition isSingleMode (itemData : ICondition.t) : bool :=
  String.eqb (default "multiple" (ICondition.mode itemData)) "single".

(** [onClickOptItem] *)
Definition onClickOptItem (itemData : ICondition.t) (value : jsval) (_curOpt : Option)
  : option (list ItemEvent) :=
  match _value value with
  | None => None
  | Some vs =>
      let key := ICondition.key itemData in
      let required := ICondition.required itemData in
      Some
        (if isSingleMode itemData then
           if required && arrIncludes vs (ContractiveFilter.value _curOpt) then []
           else
             [ ItemChange key
                 (if arrIncludes vs (ContractiveFilter.value _curOpt)
                  then VUndef else ContractiveFilter.value _curOpt)
                 false;
               ItemVisibleChange false ]
         else
           let newVal :=
             if arrIncludes vs (ContractiveFilter.value _curOpt)
             then List.filter (fun v => negb (strictEq v (ContractiveFilter.value _curOpt))) vs
             else vs ++ [ContractiveFilter.value _curOpt] in
           if required && Nat.eqb (length newVal) 0 then []
           else [ ItemChange key (VArr newVal) false ])
  end.

Section Render.

Variable toLowerCase : string -> string.

(** [filterOptions] and [useOptions] *)
Definition filterOptions (itemData : ICondition.t) (st : SelectState) : list Option :=
  getSelectOptions toLowerCase
    (default [] (ICondition.options itemData))
    (filterMap st !! ICondition.key itemData).

Definition useOptions (itemData : ICondition.t) (st : SelectState) : list Option :=
  if hasMore st
  then slice0 (filterOptions itemData st) (firstShowLength itemData)
  else filterOptions itemData st.

Definition renderOption (itemData : ICondition.t) (op : Option) : OptionNode :=
  match children op with
  | Some [] => NullNode
  | Some (_ :: _) => GroupOptNode op (firstShowLength itemData)
  | None => OptionItemNode op
  end.

(** The overlay menu. *)
Definition menu (itemData : ICondition.t) (st : SelectState) : Menu :=
  mkMenu
    (if negb (isSingleMode itemData)
     then Some (mkSelectInfo
                  (if negb (ICondition.required itemData)
                   then Some [ItemChange (ICondition.key itemData) VUndef false]
                   else None))
     else None)
    (List.map (renderOption itemData) (useOptions itemData st))
    (hasMore st).

End Render.

(** A click on "load more": [setHasMore(false)]. *)
Definition onLoadMore (st : SelectState) : SelectState :=
  mkSelectState (filterMap st) false.

(** Typing in the search box:
    [setFilterMap((prev) => ({ ...prev, [key]: v.toLowerCase() }))] *)
Definition onSearch (toLowerCase : string -> string) (itemData : ICondition.t)
    (v : string) (st : SelectState) : SelectState :=
  mkSelectState (<[ICondition.key itemData := toLowerCase v]> (filterMap st)) (hasMore st).

End SelectFilterItem.

(** *** [InputFilterItem] *)

(** What the item's own debounced callback delivers for a typed text:
    [onChange({ key, value: inputVal }, { forceChange: true })]. *)
Definition InputFilterItem_onChange (itemData : ICondition.t) (inputVal : string)
  : list ItemEvent :=
  [ItemChange (ICondition.key itemData) (VStr inputVal) true].

(** *** [TimeSpanFilterItem] *)

Module TimeSpanFilterItem.
Section Item.

(** [transformDuration] of [common/components/duration], and
    [i18n.t('msp:wrong duration')]. *)
Variable transformDuration : jsval -> jsval.
Variable wrongDuration : string.

(** [a <= b] on two numbers. *)
Definition numLe (a b : jsval) : bool :=
  match a, b with
  | VNum x, VNum y => (x <=? y)%Z
  | _, _ => false
  end.

(** The [onChange] handed to [Duration]. *)
Definition onChange (itemData : ICondition.t) (v : jsval) : list ItemEvent :=
  let durationMin := transformDuration (optIndex v 0) in
  let durationMax := transformDuration (optIndex v 1) in
  if isNumber durationMin && isNumber durationMax then
    if numLe durationMin durationMax
    then [ItemChange (ICondition.key itemData) v false]
    else [MessageError wrongDuration]
  else if negb (isNumber durationMin) && negb (isNumber durationMax) then
    [ItemChange (ICondition.key itemData) (VArr []) false]
  else [].

End Item.
End TimeSpanFilterItem.

(** *** [QuickSave] *)

Module QuickSave.

Record QuickSaveState : Type := mkQuickSaveState {
  v : string;
  tip : string
}.

Section Control.

(** [i18n.t('can not be empty')] and
    [i18n.t('{name} already exists', { name: i18n.t('Name') })]. *)
Variable canNotBeEmpty : string.
Variable alreadyExists : string.

(** The [options] prop. *)
Variable options : option (list Option).

Definition init : QuickSaveState := mkQuickSaveState "" canNotBeEmpty.

(** [map(options, 'label') || []] *)
Definition labels : list string :=
  List.map label (default [] options).

(** The body of the update effect on [v]. *)
Definition tipFor (x : string) : string :=
  if String.eqb x "" then canNotBeEmpty
  else if existsb (String.eqb x) labels then alreadyExists
  else "".

(** [setV(x)] followed by the update effect, which runs only when [v]
    has changed. *)
Definition setV (x : string) (st : QuickSaveState) : QuickSaveState :=
  if String.eqb x (v st) then st else mkQuickSaveState x (tipFor x).

(** [save]: the calls on [onSave], and the next state. *)
Definition save (st : QuickSaveState) : QuickSaveState * list string :=
  (setV "" st, if String.eqb (tip st) "" then [v st] else []).

Inductive Event : Type :=
| Type_ (text : string)
| ClickSave.

Definition onEvent (st : QuickSaveState) (ev : Event) : QuickSaveState * list string :=
  match ev with
  | Type_ text => (setV text st, [])
  | ClickSave => save st
  end.

(** The states the control can be in. *)
Inductive reachableState : QuickSaveState -> Prop :=
| reach_init : reachableState init
| reach_event st ev : reachableState st -> reachableState (fst (onEvent st ev)).

End Control.
End QuickSave.

(** *** [ContractiveFilter], the bar itself *)

(** [debounce(onChange, delay)]: the instance remembers the wait it was
    made with. *)
Record Debounced : Type := debounce {
  wait : Z
}.

(** The props the handlers read.  [delay] and [initValue] are those the bar
    was mounted with; [values] is replaced when the parent passes a new
    one. *)
Record Props : Type := mkProps {
  initValue : option (gmap string jsval);
  values : option (gmap string jsval);
  delay : Z
}.

(** The state cells and refs of the component. *)
Record Bar : Type := mkBar {
  props : Props;
  conditions : list ICondition.t;
  valueMap : gmap string jsval;
  valueMapRef : gmap string jsval;
  activeMap : gmap string bool;
  debouncedChange : Debounced
}.

(** The calls the bar makes: on the debounced instance, on the [onChange]
    and [onQuickOperation] props, and [message.error] made by an item. *)
Inductive Call : Type :=
| CallDebouncedChange (instance : Debounced) (valueMap : gmap string jsval) (key : jsval)
| CallOnChange (valueMap : gmap string jsval) (key : jsval)
| CallOnQuickOperation (key : string) (value : jsval)
| CallMessageError (content : string).

Definition setConditions (cs : list ICondition.t) (b : Bar) : Bar :=
  mkBar (props b) cs (valueMap b) (valueMapRef b) (activeMap b)
    (debouncedChange b).

Definition setValueMap (m : gmap string jsval) (b : Bar) : Bar :=
  mkBar (props b) (conditions b) m (valueMapRef b) (activeMap b)
    (debouncedChange b).

Definition setActiveMap (m : gmap string bool) (b : Bar) : Bar :=
  mkBar (props b) (conditions b) (valueMap b) (valueMapRef b) m
    (debouncedChange b).

Definition setValues (vs : option (gmap string jsval)) (b : Bar) : Bar :=
  mkBar (mkProps (initValue (props b)) vs (delay (props b)))
    (conditions b) (valueMap b) (valueMapRef b) (activeMap b)
    (debouncedChange b).

(** [{ ...item, showIndex: i }] *)
Definition withShowIndex (item : ICondition.t) (i : option Z) : ICondition.t :=
  ICondition.mk (ICondition.key item) (ICondition.label item) (ICondition.type item)
    (ICondition.split item) (ICondition.fixed item) i (ICondition.options item)
    (ICondition.firstShowLength item) (ICondition.required item) (ICondition.mode item).

(** The first argument of [handelItemChange]: a [{ key, value }] pair, or,
    from the one caller that sets [batchChange], a whole value map. *)
Inductive ChangeArg : Type :=
| KeyValue (key : string) (value : jsval)
| ValueMapArg (newValueMap : gmap string jsval).

(** [{ ...prev, [key]: value }], respectively [{ ...prev, ...newValueMap }] *)
Definition mergeChange (arg : ChangeArg) (prev : gmap string jsval) : gmap string jsval :=
  match arg with
  | KeyValue key value => <[key := value]> prev
  | ValueMapArg newValueMap => newValueMap ∪ prev
  end.

(** [newValueMap?.key] *)
Definition changedKey (arg : ChangeArg) : jsval :=
  match arg with
  | KeyValue key _ => VStr key
  | ValueMapArg newValueMap => getProp newValueMap "key"
  end.

(** [handelItemChange] *)
Definition handelItemChange (b : Bar) (newValueMap : ChangeArg) (forceChange : bool)
  : Bar * list Call :=
  let curValueMap := mergeChange newValueMap (valueMapRef b) in
  (setValueMap (mergeChange newValueMap (valueMap b)) b,
   [ if truthy (VNum (delay (props b))) && negb forceChange
     then CallDebouncedChange (debouncedChange b) curValueMap (changedKey newValueMap)
     else CallOnChange curValueMap (changedKey newValueMap) ]).

(** [fixed || (type === 'input' && fixed !== false)], read off a condition
    and off what [conditions[_k] || {}] returned. *)
Definition staysOnClear (fixed : option bool) (type : option ConditionType) : bool :=
  default false fixed
  || (match type with Some input => true | _ => false end
      && negb (match fixed with Some false => true | _ => false end)).

Definition conditionStaysOnClear (pItem : ICondition.t) : bool :=
  staysOnClear (ICondition.fixed pItem) (Some (ICondition.type pItem)).

Definition lookedUpStaysOnClear (curConditions : option ICondition.t) : bool :=
  match curConditions with
  | Some c => conditionStaysOnClear c
  | None => staysOnClear None None
  end.

(** lodash [isArrayLike] on the value map: its [length] entry is a number
    that [isLength] accepts, an integer from 0 to [MAX_SAFE_INTEGER]. *)
Definition arrayLikeLength (m : gmap string jsval) : option Z :=
  match m !! "length" with
  | Some (VNum n) =>
      if (0 <=? n)%Z && (n <=? MAX_SAFE_INTEGER)%Z then Some n else None
  | _ => None
  end.

(** The callback of [map(newValueMap, (_v, _k) => ...)] at the index
    [index], where [conditions[index]] is an element of the list or
    [undefined], and the assignment is to the key [String(index)]. *)
Definition clearIndex (b : Bar) (newValueMap : gmap string jsval) (index : nat)
  : gmap string jsval :=
  if lookedUpStaysOnClear (conditions b !! index) then newValueMap
  else <[pretty index := nullish (optGetProp (initValue (props b)) (pretty index)) VUndef]>
         newValueMap.

(** [newValueMap] after [map(newValueMap, (_v, _k) => ...)].  lodash walks
    the own keys of an object, and the callback assigns to the key it is
    given.  An object that is array-like is walked as an array instead: the
    callback is given the indices below [length], whatever keys the object
    has, after [Array(length)] has been made for the results, which throws a
    [RangeError] for a length above [MAX_ARRAY_LENGTH].  [None] stands for
    the throw. *)
Definition clearedValueMap (b : Bar) : option (gmap string jsval) :=
  match arrayLikeLength (valueMap b) with
  | Some len =>
      if (len <=? MAX_ARRAY_LENGTH)%Z
      then Some (fold_left (clearIndex b) (seq 0 (Z.to_nat len)) (valueMap b))
      else None
  | None =>
      Some (map_imap
              (fun _k _v =>
                 Some (if lookedUpStaysOnClear (arrayGet (conditions b) _k) then _v
                       else nullish (optGetProp (initValue (props b)) _k) VUndef))
              (valueMap b))
  end.

(** [handleClearSelected].  When [map] throws, the update of [conditions]
    has been queued and nothing after it runs. *)
Definition handleClearSelected (b : Bar) : Bar * list Call :=
  let conditions' :=
    List.map
      (fun pItem => if conditionStaysOnClear pItem then pItem
                    else withShowIndex pItem (Some 0%Z))
      (conditions b) in
  match clearedValueMap b with
  | Some newValueMap =>
      handelItemChange (setConditions conditions' b) (ValueMapArg newValueMap) false
  | None => (setConditions conditions' b, [])
  end.

(** lodash [max] over [map(conditions, 'showIndex')]: [undefined] entries are
    skipped, and the result is [undefined] when nothing is left. *)
Definition maxShowIndex (cs : list ICondition.t) : option Z :=
  fold_left
    (fun acc item =>
       match ICondition.showIndex item, acc with
       | Some i, Some m => Some (Z.max m i)
       | Some i, None => Some i
       | None, _ => acc
       end)
    cs None.

(** [(maxShowIndex || 0) + 1], the sum rounded as a sum of doubles is. *)
Definition nextShowIndex (maxShowIndex : option Z) : Z :=
  plus1 (match maxShowIndex with
         | Some x => if truthy (VNum x) then x else 0%Z
         | None => 0%Z
         end).

(** [setConditionShowIndex] *)
Definition setConditionShowIndex (cs : list ICondition.t) (key : string) (show : bool)
  : list ICondition.t :=
  let m := maxShowIndex cs in
  List.map
    (fun item =>
       withShowIndex item
         (if String.eqb key (ICondition.key item)
          then Some (if show then nextShowIndex m else 0%Z)
          else ICondition.showIndex item))
    cs.

(** [displayConditionsLen]: the more-conditions dropdown, which holds the
    global "Clear selected", is rendered when this is positive. *)
Definition displayConditionsLen (cs : list ICondition.t) : nat :=
  length
    (List.filter
       (fun item =>
          (negb (default false (ICondition.fixed item))
           && negb (ConditionType_eqb (ICondition.type item) input)
           && negb (ICondition.split item))
          || (match ICondition.fixed item with Some false => true | _ => false end
              && ConditionType_eqb (ICondition.type item) input))
       cs).

(** The close icon of a shown item is rendered when
    [!item.fixed && item.type !== 'input']. *)
Definition closeIconShown (item : ICondition.t) : bool :=
  negb (default false (ICondition.fixed item))
  && negb (ConditionType_eqb (ICondition.type item) input).

(** Its [onClick]. *)
Definition onCloseClick (b : Bar) (item : ICondition.t) : Bar * list Call :=
  let b' :=
    setConditions (setConditionShowIndex (conditions b) (ICondition.key item) false) b in
  match getProp (valueMap b) (ICondition.key item) with
  | VUndef => (b', [])
  | _ => handelItemChange b' (KeyValue (ICondition.key item) VUndef) false
  end.

(** How the bar serves one event of the item rendered for [item]. *)
Definition onItemEvent (item : ICondition.t) (b : Bar) (e : ItemEvent) : Bar * list Call :=
  match e with
  | ItemChange key value forceChange => handelItemChange b (KeyValue key value) forceChange
  | ItemVisibleChange visible =>
      (setActiveMap (<[ICondition.key item := visible]> (activeMap b)) b, [])
  | ItemQuickOperation key value => (b, [CallOnQuickOperation key value])
  | MessageError content => (b, [CallMessageError content])
  end.

(** The events of one user action on an item, served in order. *)
Fixpoint onItemEvents (item : ICondition.t) (b : Bar) (es : list ItemEvent)
  : Bar * list Call :=
  match es with
  | [] => (b, [])
  | e :: es' =>
      let '(b1, calls1) := onItemEvent item b e in
      let '(b2, calls2) := onItemEvents item b1 es' in
      (b2, calls1 ++ calls2)
  end.

(** What can happen to a mounted bar. *)
Inductive BarEvent : Type :=
| ItemAction (item : ICondition.t) (es : list ItemEvent)
| ClickClearSelected
| ClickClose (item : ICondition.t)
| ValuesChanged (values : option (gmap string jsval)).

Definition handle (b : Bar) (ev : BarEvent) : Bar * list Call :=
  match ev with
  | ItemAction item es => onItemEvents item b es
  | ClickClearSelected => handleClearSelected b
  | ClickClose item => onCloseClick b item
  | ValuesChanged vs => (setValueMap (default ∅ vs) (setValues vs b), [])
  end.

(** The effect on [valueMap] that runs after each render:
    [valueMapRef.current = { ...valueMap }]. *)
Definition commit (b : Bar) : Bar :=
  mkBar (props b) (conditions b) (valueMap b) (valueMap b) (activeMap b)
    (debouncedChange b).

Definition step (b : Bar) (ev : BarEvent) : Bar * list Call :=
  let '(b', calls) := handle b ev in (commit b', calls).

(** [values || initValue || {}] *)
Definition initialValueMap (p : Props) : gmap string jsval :=
  match values p with
  | Some m => m
  | None => default ∅ (initValue p)
  end.

(** A bar just mounted with props [p], after its first effects have run.
    The initial condition list plays no part in the results below and is
    left open. *)
Definition mounted (p : Props) (b : Bar) : Prop :=
  props b = p /\
  valueMap b = initialValueMap p /\
  valueMapRef b = valueMap b /\
  activeMap b = ∅ /\
  debouncedChange b = debounce (delay p).

(** The states of a bar mounted with [p]. *)
Inductive reachable (p : Props) : Bar -> Prop :=
| reach_mounted b : mounted p b -> reachable p b
| reach_step b ev : reachable p b -> reachable p (fst (step b ev)).

(** What no handler changes: the delay and the initial values the bar was
    mounted with, and the debounced instance kept in the ref. *)
Definition sameConfig (b b' : Bar) : Prop :=
  delay (props b') = delay (props b)
  /\ initValue (props b') = initValue (props b)
  /\ debouncedChange b' = debouncedChange b.

End ContractiveFilter.

(** ** The iteration list page *)

Module IterationPage.

(** [ITERATION.Detail], the fields the page reads.  Its declaration is not
    part of the sources; the fields are kept as JavaScript values. *)
Record Detail : Type := mkDetail {
  id : jsval;
  title : jsval;
  content : jsval;
  startedAt : jsval;
  finishedAt : jsval;
  state : jsval
}.

(** The state the handlers of one render close over: the [status] cell,
    the [projectId] route parameter, the page number of the store's paging,
    and the two cells kept by [useUpdate]. *)
Record Page : Type := mkPage {
  status : string;
  projectId : string;
  pageNo : jsval;
  modalVisible : bool;
  curDetail : option Detail
}.

(** The calls a handler makes on the store's effects and on [Modal], each
    with what runs once the returned promise resolves, respectively once
    the dialog is confirmed. *)
Inductive Cmd : Type :=
| getIterations (payload : gmap string jsval)
| deleteIteration (id : jsval) (then_ : list Cmd)
| handleFiledIteration (payload : gmap string jsval) (then_ : list Cmd)
| ModalConfirm (title content : string) (onOk : list Cmd).

(** What a call sets off when its promise resolves. *)
Definition onResolved (c : Cmd) : list Cmd :=
  match c with
  | getIterations _ => []
  | deleteIteration _ k => k
  | handleFiledIteration _ k => k
  | ModalConfirm _ _ _ => []
  end.

(** What a dialog sets off when the user confirms it. *)
Definition onConfirmed (c : Cmd) : list Cmd :=
  match c with
  | ModalConfirm _ _ k => k
  | _ => []
  end.

Definition isDelete (c : Cmd) : bool :=
  match c with deleteIteration _ _ => true | _ => false end.

(** [<WithAuth pass={...}><span>{text}</span></WithAuth>] *)
Record WithAuth : Type := mkWithAuth {
  pass : bool;
  text : string
}.

(** One row action: its title and what a click on it does to the page
    state and calls. *)
Record Action : Type := mkAction {
  actionTitle : WithAuth;
  onClick : Page * list Cmd
}.

(** [iterationStateMap].  [status] only ever holds the initial
    ['unarchive'] or the value of one of [options], so reads of inherited
    properties of the object literal do not arise. *)
Definition iterationStateMap : list (string * string) :=
  [("archived", "FILED"); ("unarchive", "UNFILED")].

Definition iterationStateOf (status : string) : jsval :=
  match List.find (fun kv => String.eqb (fst kv) status) iterationStateMap with
  | Some kv => VStr (snd kv)
  | None => VUndef
  end.

(** [query] *)
Definition query (s : Page) : gmap string jsval :=
  <["state" := iterationStateOf (status s)]> (<["pageNo" := VNum 1]> ∅).

Definition setStatus (v : string) (s : Page) : Page :=
  mkPage v (projectId s) (pageNo s) (modalVisible s) (curDetail s).

Section Page.

(** [i18n.t], and unary [+] on the route parameter. *)
Variable t : string -> string.
Variable toNumber : string -> jsval.

(** The tabs: value and label. *)
Definition options : list (string * string) :=
  [("unarchive", t "In Progress"); ("archived", t "Archived")].

(** [getList]: [getIterations({ ...query, ...q, projectID: +projectId })] *)
Definition getList (s : Page) (q : gmap string jsval) : Cmd :=
  getIterations (<["projectID" := toNumber (projectId s)]> (q ∪ query s)).

(** The effect on [getList], which runs at mount and after a render in
    which [getList] is a new function: [query] (memoised on [status]) or
    [projectId] has changed. *)
Definition mountEffects (s : Page) : list Cmd :=
  [getList s ∅].

Definition renderEffects (prev next : Page) : list Cmd :=
  if String.eqb (status prev) (status next) && String.eqb (projectId prev) (projectId next)
  then []
  else [getList next ∅].

(** [onChange] of [RadioTabs]: [setStatus(v)], then the effects of the
    render it causes. *)
Definition onTabChange (v : string) (s : Page) : Page * list Cmd :=
  (setStatus v s, renderEffects s (setStatus v s)).

(** [onDelete] *)
Definition onDelete (s : Page) (id : jsval) : list Cmd :=
  [deleteIteration id [getList s (<["pageNo" := VNum 1]> ∅)]].

(** [onEdit] *)
Definition onEdit (s : Page) (item : Detail) : Page :=
  mkPage (status s) (projectId s) (pageNo s) true (Some item).

(** [onFiled] *)
Definition onFiled (s : Page) (record : Detail) (operation : string) : list Cmd :=
  [handleFiledIteration
     (<["id" := id record]>
        (<["startedAt" := startedAt record]>
           (<["finishedAt" := finishedAt record]>
              (<["title" := title record]>
                 (<["content" := content record]>
                    (<["state" := VStr operation]> ∅))))))
     [getList s (<["pageNo" := VNum 1]> ∅)]].

(** [onCreate] *)
Definition onCreate (s : Page) : Page :=
  mkPage (status s) (projectId s) (pageNo s) true (curDetail s).

(** [handleClose] *)
Definition handleClose (s : Page) (isSave : bool) : Page * list Cmd :=
  (mkPage (status s) (projectId s) (pageNo s) false None,
   if isSave then [getList s (<["pageNo" := pageNo s]> ∅)] else []).

(** [onChange] of the table's pagination. *)
Definition onPageChange (s : Page) (no size : jsval) : list Cmd :=
  [getList s (<["pageNo" := no]> (<["pageSize" := size]> ∅))].

(** [actions.render] *)
Definition actions_render (operationAuth handleFiledAuth : bool) (s : Page)
    (record : Detail) : list Action :=
  if strictEq (state record) (VStr "FILED") then
    [ mkAction (mkWithAuth handleFiledAuth (t "dop:Unarchive"))
        (s, onFiled s record "UNFILED") ]
  else
    [ mkAction (mkWithAuth operationAuth (t "Edit"))
        (onEdit s record, []);
      mkAction (mkWithAuth handleFiledAuth (t "Archive"))
        (s, onFiled s record "FILED");
      mkAction (mkWithAuth operationAuth (t "Delete"))
        (s, [ModalConfirm
               (String.append (t "common:confirm to delete") "？")
               (String.append (t "common:confirm this action") "？")
               (onDelete s (id record))]) ].

End Page.

End IterationPage.

(** ** The progress column of the iteration list *)

Module ProgressColumn.

(** One entry of [record.issueSummary]: the [done] and [undone] counts of
    one category of issues; a count that is not there reads [undefined].
    [ITERATION.Detail] is not part of the sources: the summary is taken as
    the column's code reads it, a collection of such entries, and is given
    by its entries in the order lodash [map] visits them; an absent summary
    is [None]. *)
Record IssueCount : Type := mkIssueCount {
  done : option spec_float;
  undone : option spec_float
}.

(** [map(record.issueSummary || {})] *)
Definition entries (issueSummary : option (list IssueCount)) : list IssueCount :=
  default [] issueSummary.

(** lodash [baseSum]: [undefined] values are skipped, and the sum of no
    value is [undefined]. *)
Definition baseSum (values : list (option spec_float)) : option spec_float :=
  fold_left
    (fun result current =>
       match current with
       | Some c => Some (match result with
                         | Some r => Double.add r c
                         | None => c
                         end)
       | None => result
       end)
    values None.

(** lodash [sumBy(array, key)] on the values read under [key]:
    [array && array.length ? baseSum(array, key) : 0] *)
Definition sumBy (values : list (option spec_float)) : option spec_float :=
  match values with
  | [] => Some (S754_zero false)
  | _ :: _ => baseSum values
  end.

(** [x || 0] *)
Definition orZero (x : option spec_float) : spec_float :=
  match x with
  | Some v => if Double.toBoolean v then v else S754_zero false
  | None => S754_zero false
  end.

(** [doneTotal] and [totalCount] *)
Definition doneTotal (issueSummary : option (list IssueCount)) : spec_float :=
  orZero (sumBy (List.map done (entries issueSummary))).

Definition totalCount (issueSummary : option (list IssueCount)) : spec_float :=
  Double.add (orZero (sumBy (List.map undone (entries issueSummary))))
    (doneTotal issueSummary).

(** [(totalCount ? doneTotal / totalCount : 0) * 100] *)
Definition scaled (issueSummary : option (list IssueCount)) : spec_float :=
  Double.mul
    (if Double.toBoolean (totalCount issueSummary)
     then Double.div (doneTotal issueSummary) (totalCount issueSummary)
     else S754_zero false)
    (Double.ofZ 100).

(** [percent], the text [toFixed(1)] returns. *)
Definition percent (issueSummary : option (list IssueCount)) : Double.Fixed1 :=
  Double.toFixed1 (scaled issueSummary).

(** The [percent] prop handed to [Progress]: [+percent]. *)
Definition progressPercent (issueSummary : option (list IssueCount)) : spec_float :=
  Double.unaryPlus (percent issueSummary).

(** The percentage in the words of the specification, in tenths, for sums
    that are natural numbers: 100 times the done sum divided by the sum of
    done and undone, rounded to one decimal place (to the nearest tenth,
    half-way up), and 0 when both sums are zero. *)
Definition exactTenths (doneSum undoneSum : Z) : Z :=
  if (doneSum + undoneSum =? 0)%Z then 0%Z
  else ((2000 * doneSum + (doneSum + undoneSum)) / (2 * (doneSum + undoneSum)))%Z.

(** A summary of one category with the given counts. *)
Definition oneCategory (doneCount undoneCount : Z) : option (list IssueCount) :=
  Some [mkIssueCount (Some (Double.ofZ doneCount)) (Some (Double.ofZ undoneCount))].

End ProgressColumn.

(** ** More of the filter bar: what is shown, the more-conditions menu *)

Module FilterBarView.

Import ContractiveFilter.

Definition isUndefined (v : jsval) : bool :=
  match v with VUndef => true | _ => false end.

(** lodash [isEmpty] on an array. *)
Definition isEmptyArray (v : jsval) : bool :=
  match v with VArr [] => true | _ => false end.

(** [!!a.showIndex] *)
Definition showIndexTruthy (a : ICondition.t) : bool :=
  match ICondition.showIndex a with
  | Some i => truthy (VNum i)
  | None => false
  end.

Definition isInput (a : ICondition.t) : bool :=
  ConditionType_eqb (ICondition.type a) input.

Definition fixedIsFalse (a : ICondition.t) : bool :=
  match ICondition.fixed a with Some false => true | _ => false end.

(** [inputList] and [mainList] *)
Definition inputList (cs : list ICondition.t) : list ICondition.t :=
  List.filter (fun a => isInput a && negb (fixedIsFalse a)) cs.

Definition mainList (cs : list ICondition.t) : list ICondition.t :=
  List.filter ICondition.split cs.

(** The test of [showList]. *)
Definition isShown (valueMap : gmap string jsval) (a : ICondition.t) : bool :=
  if ICondition.split a then false
  else
    let curValue := getProp valueMap (ICondition.key a) in
    if negb (isInput a)
       && (negb (isUndefined curValue)
           || (isArray curValue && negb (isEmptyArray curValue)))
    then true
    else if negb (isInput a)
         then showIndexTruthy a || default false (ICondition.fixed a)
         else showIndexTruthy a && fixedIsFalse a.

(** lodash [sortBy(_, 'showIndex')]: a stable sort, ascending, the
    conditions without a [showIndex] last. *)
Definition showIndexLe (a b : option Z) : bool :=
  match a, b with
  | Some x, Some y => (x <=? y)%Z
  | Some _, None => true
  | None, Some _ => false
  | None, None => true
  end.

Fixpoint insertByShowIndex (x : ICondition.t) (l : list ICondition.t)
  : list ICondition.t :=
  match l with
  | [] => [x]
  | y :: l' =>
      if showIndexLe (ICondition.showIndex x) (ICondition.showIndex y)
      then x :: y :: l'
      else y :: insertByShowIndex x l'
  end.

Definition sortByShowIndex (l : list ICondition.t) : list ICondition.t :=
  fold_right insertByShowIndex [] l.

(** [showList] *)
Definition showList (b : Bar) : list ICondition.t :=
  sortByShowIndex (List.filter (isShown (valueMap b)) (conditions b)).

(** The items of the bar, in the order they are rendered:
    [[...mainList, ...inputList, ...showList]]. *)
Definition renderedItems (b : Bar) : list ICondition.t :=
  mainList (conditions b) ++ inputList (conditions b) ++ showList b.

(** [!!showList.find((a) => a.key === key)]: the state of the checkbox of a
    menu entry, and [haveShow] in its [handleClick]. *)
Definition haveShow (b : Bar) (key : string) : bool :=
  existsb (fun a => String.eqb (ICondition.key a) key) (showList b).

(** Whether the more-conditions menu has an entry for [item], given the
    text [hideFilterKey] of its search box. *)
Definition menuEntryShown (toLowerCase : string -> string) (hideFilterKey : string)
    (item : ICondition.t) : bool :=
  negb (conditionStaysOnClear item
        || (negb (String.eqb (ICondition.label item) "")
            && negb (strIncludes (toLowerCase (ICondition.label item)) hideFilterKey))).

(** [handleClick] of a menu entry. *)
Definition handleClick (b : Bar) (item : ICondition.t) : Bar :=
  let shown := haveShow b (ICondition.key item) in
  let b' :=
    setConditions
      (setConditionShowIndex (conditions b) (ICondition.key item) (negb shown)) b in
  if negb shown
  then setActiveMap (<[ICondition.key item := true]> (activeMap b')) b'
  else b'.

(** Two conditions that differ at most in [showIndex]. *)
Definition sameButShowIndex (a a' : ICondition.t) : Prop :=
  a' = withShowIndex a (ICondition.showIndex a').

(** A number as arithmetic on [undefined] can leave it. *)
Inductive jsnum : Type :=
| NaN
| Fin (z : Z).

(** [curMax += 1], where [curMax] may still be [undefined]. *)
Definition plusOne (curMax : option jsnum) : jsnum :=
  match curMax with
  | Some (Fin z) => Fin (plus1 z)
  | Some NaN => NaN
  | None => NaN
  end.

(** An element of the [conditions] prop as [getInitConditions] reads it.
    lodash [has(item, 'showIndex')] asks for the key, not for its value: an
    object whose [showIndex] key is bound to [undefined] has the key.
    [showIndexKey] tells whether the key is there when [showIndex] reads
    [undefined]; with a [showIndex] that is a number the key is there. *)
Record PropCondition : Type := mkPropCondition {
  condition : ICondition.t;
  showIndexKey : bool
}.

(** [has(item, 'showIndex')] *)
Definition hasShowIndex (item : PropCondition) : bool :=
  match ICondition.showIndex (condition item) with
  | Some _ => true
  | None => showIndexKey item
  end.

(** An element of the result of [getInitConditions]:
    [{ ...source, showIndex: i }] when [given] is [Some i], and
    [{ ...source }] when it is [None]. *)
Record InitCondition : Type := mkInitCondition {
  source : PropCondition;
  given : option jsnum
}.

(** The test of [getInitConditions]:
    [(!has(item, 'showIndex') && curValue !== undefined)
     || (isArray(curValue) && !isEmpty(curValue))] *)
Definition defaultShown (valueMap : gmap string jsval) (item : PropCondition) : bool :=
  let curValue := getProp valueMap (ICondition.key (condition item)) in
  (negb (hasShowIndex item) && negb (isUndefined curValue))
  || (isArray curValue && negb (isEmptyArray curValue)).

(** [getInitConditions]: the callback of [map] counts [curMax] up as it
    goes through the conditions. *)
Definition getInitConditions (cs : list PropCondition) (valueMap : gmap string jsval)
  : list InitCondition :=
  snd
    (fold_left
       (fun st item =>
          if defaultShown valueMap item
          then (Some (plusOne (fst st)),
                snd st ++ [mkInitCondition item (Some (plusOne (fst st)))])
          else (fst st, snd st ++ [mkInitCondition item None]))
       cs
       (Fin <$> maxShowIndex (List.map condition cs), [])).

(** The result of [getInitConditions] read condition by condition, with
    the count reached so far: how the loop above unfolds. *)
Fixpoint initFrom (valueMap : gmap string jsval) (curMax : option jsnum)
    (cs : list PropCondition) : list InitCondition :=
  match cs with
  | [] => []
  | item :: cs' =>
      if defaultShown valueMap item
      then mkInitCondition item (Some (plusOne curMax))
             :: initFrom valueMap (Some (plusOne curMax)) cs'
      else mkInitCondition item None :: initFrom valueMap curMax cs'
  end.

End FilterBarView.

(** *** [GroupOpt] *)

Module GroupOpt.

Import ContractiveFilter.

Record GroupState : Type := mkGroupState {
  expand : bool;
  groupHasMore : bool
}.

(** [option.children?.length || 0] *)
Definition childrenLength (opt : Option) : Z :=
  match children opt with
  | Some cs => Z.of_nat (length cs)
  | None => 0
  end.

(** The initial value of [hasMore]:
    [firstShowLength ? (option.children?.length || 0) > firstShowLength : false] *)
Definition initialGroupHasMore (opt : Option) (firstShowLength : option Z) : bool :=
  match firstShowLength with
  | Some n => if truthy (VNum n) then (childrenLength opt >? n)%Z else false
  | None => false
  end.

Definition initialGroupState (opt : Option) (firstShowLength : option Z)
  : GroupState :=
  mkGroupState true (initialGroupHasMore opt firstShowLength).

(** [useOption]: [hasMore ? option.children?.slice(0, firstShowLength)
    : option.children] *)
Definition useOption (opt : Option) (firstShowLength : option Z) (st : GroupState)
  : option (list Option) :=
  if groupHasMore st
  then match children opt with
       | Some cs => Some (match firstShowLength with
                          | Some n => slice0 cs n
                          | None => cs
                          end)
       | None => None
       end
  else children opt.

Definition onGroupLoadMore (st : GroupState) : GroupState :=
  mkGroupState (expand st) false.

Definition onLabelClick (st : GroupState) : GroupState :=
  mkGroupState (negb (expand st)) (groupHasMore st).

(** The group a [SelectFilterItem] renders for a [GroupOptNode]: it hands
    its own [firstShowLength], default included, to [GroupOpt]. *)
Definition groupOfNode (node : SelectFilterItem.OptionNode)
  : option (Option * option Z) :=
  match node with
  | SelectFilterItem.GroupOptNode op n => Some (op, Some n)
  | _ => None
  end.

End GroupOpt.

(** *** [RangePickerFilterItem] *)

Module RangePickerFilterItem.

(** What [valueConvert] works on, after its own signature
    ([number | Moment], and the [null] and [undefined] of an open end).
    A moment is modelled by the instant, in milliseconds, it stands for. *)
Inductive TimeVal : Type :=
| TNull
| TUndef
| TNum (ms : Z)
| TMoment (ms : Z).

Inductive RangeVal : Type :=
| Single (v : TimeVal)
| Range (vs : list TimeVal).

(** [convertItem]: a moment becomes its [valueOf()]; anything else [v]
    becomes [v && moment(v)]. *)
Definition convertItem (v : TimeVal) : TimeVal :=
  match v with
  | TMoment ms => TNum ms
  | TNum n => if Z.eqb n 0 then TNum 0 else TMoment n
  | TNull => TNull
  | TUndef => TUndef
  end.

(** [valueConvert] *)
Definition valueConvert (val : RangeVal) : RangeVal :=
  match val with
  | Range vs => Range (List.map convertItem vs)
  | Single v => Single (convertItem v)
  end.

(** [moment.isMoment] *)
Definition isMoment (v : TimeVal) : bool :=
  match v with TMoment _ => true | _ => false end.

(** The entries of a value. *)
Definition rangeItems (val : RangeVal) : list TimeVal :=
  match val with
  | Range vs => vs
  | Single v => [v]
  end.

(** What the picker hands to [onChange]: [null], or a list of moments and
    [null]s. *)
Definition pickerVal (picked : option (list (option Z))) : RangeVal :=
  match picked with
  | None => Single TNull
  | Some l => Range (List.map (fun d => match d with
                                        | Some ms => TMoment ms
                                        | None => TNull
                                        end) l)
  end.

Section Picker.

(** [startOf('dates')] and [endOf('dates')] on the instant of a moment. *)
Variable startOfDay : Z -> Z.
Variable endOfDay : Z -> Z.

(** The [map] of [onChange] under [borderTime]. *)
Fixpoint toBorders (idx : nat) (l : list (option Z)) : list (option Z) :=
  match l with
  | [] => []
  | vItem :: l' =>
      (match idx, vItem with
       | 0, Some ms => Some (startOfDay ms)
       | 1, Some ms => Some (endOfDay ms)
       | _, _ => vItem
       end) :: toBorders (S idx) l'
  end.

(** [val] in [onChange]. *)
Definition bordered (borderTime : bool) (picked : option (list (option Z)))
  : option (list (option Z)) :=
  match picked with
  | Some l => if borderTime then Some (toBorders 0 l) else Some l
  | None => None
  end.

(** The value [onChange] of the picker passes on:
    [onChange({ key, value: valueConvert(val) })]. *)
Definition onChangeValue (borderTime : bool) (picked : option (list (option Z)))
  : RangeVal :=
  valueConvert (pickerVal (bordered borderTime picked)).

End Picker.

End RangePickerFilterItem.

(** ** More of the iteration page: the dialog and the events of the page *)

Module IterationFlow.

Import IterationPage.

(** The page as it is first rendered. *)
Definition initialPage (projectId : string) (pageNo : jsval) : Page :=
  mkPage "unarchive" projectId pageNo false None.

Inductive PageEvent : Type :=
| ClickAdd
| ClickEdit (record : Detail)
| CloseModal (isSave : bool)
| SelectTab (v : string)
| PagingLoaded (pageNo : jsval).

Section Flow.

Variable toNumber : string -> jsval.

Definition pageStep (s : Page) (ev : PageEvent) : Page * list Cmd :=
  match ev with
  | ClickAdd => (onCreate s, [])
  | ClickEdit record => (onEdit s record, [])
  | CloseModal isSave => handleClose toNumber s isSave
  | SelectTab v => onTabChange toNumber v s
  | PagingLoaded n =>
      (mkPage (status s) (projectId s) n (modalVisible s) (curDetail s), [])
  end.

Inductive pageReachable (projectId : string) : Page -> Prop :=
| page_initial pageNo : pageReachable projectId (initialPage projectId pageNo)
| page_step s ev :
    pageReachable projectId s -> pageReachable projectId (fst (pageStep s ev)).

End Flow.

End IterationFlow.

(** ** Sample data

    Concrete inputs on which the results below are exercised. *)

Module Samples.

Import ContractiveFilter.

(** Lower-casing of the ASCII letters, an instance of [toLowerCase]. *)
Definition asciiLowerChar (c : ascii) : ascii :=
  let n := nat_of_ascii c in
  if Nat.leb 65 n && Nat.leb n 90 then ascii_of_nat (n + 32) else c.

Fixpoint asciiLower (s : string) : string :=
  match s with
  | EmptyString => EmptyString
  | String c s' => String (asciiLowerChar c) (asciiLower s')
  end.

Definition optOpen : Option := mkOption "Open" (VStr "open") None None.
Definition optClosed : Option := mkOption "Closed" (VStr "closed") None None.
Definition optReopened : Option := mkOption "Reopened" (VStr "reopened") None None.
Definition optStates : Option :=
  mkOption "States" (VStr "states") None (Some [optOpen; optClosed; optReopened]).
Definition optNoChildren : Option := mkOption "Open group" (VStr "none") None (Some []).

(** A required select condition that is not fixed. *)
Definition statusCondition : ICondition.t :=
  ICondition.mk "status" "Status" select false None None
    (Some [optOpen; optClosed; optReopened]) None true None.

(** The same in single-select mode. *)
Definition statusSingle : ICondition.t :=
  ICondition.mk "status" "Status" select false None None
    (Some [optOpen; optClosed; optReopened]) None true (Some "single").

(** Three options, at most two of them shown at first. *)
Definition firstTwo : ICondition.t :=
  ICondition.mk "status" "Status" select false None None
    (Some [optOpen; optClosed; optReopened]) (Some 2%Z) false None.

(** [firstShowLength: 0] with one option. *)
Definition firstZero : ICondition.t :=
  ICondition.mk "status" "Status" select false None None
    (Some [optOpen]) (Some 0%Z) false None.

(** A bar controlled through [values], with no [initValue] and no delay,
    showing the required condition with one option selected. *)
Definition statusProps : Props :=
  mkProps None (Some (<["status" := VArr [VStr "open"]]> ∅)) 0.

Definition statusBar : Bar :=
  mkBar statusProps [statusCondition]
    (<["status" := VArr [VStr "open"]]> ∅)
    (<["status" := VArr [VStr "open"]]> ∅)
    ∅ (debounce 0).

(** A bar with a delay of 300 ms. *)
Definition delayedProps : Props := mkProps None None 300.

Definition delayedBar : Bar :=
  mkBar delayedProps [statusCondition] ∅ ∅ ∅ (debounce 300).

(** An instance of [transformDuration]: a number stands for itself,
    anything else has no duration. *)
Definition numberDuration (v : jsval) : jsval :=
  match v with
  | VNum n => VNum n
  | _ => VUndef
  end.

Definition durationCondition : ICondition.t :=
  ICondition.mk "duration" "Duration" timespanRange false None None None None false None.

(** An instance of unary [+] on the route parameter: the number a string
    of decimal digits denotes. *)
Fixpoint digits (s : string) (acc : Z) : option Z :=
  match s with
  | EmptyString => Some acc
  | String c s' =>
      let n := nat_of_ascii c in
      if Nat.leb 48 n && Nat.leb n 57
      then digits s' (10 * acc + Z.of_nat (n - 48))%Z
      else None
  end.

Definition decimalNumber (s : string) : jsval :=
  match digits s 0 with
  | Some n => VNum n
  | None => VUndef
  end.

(** An instance of [i18n.t]: a locale whose texts are the keys. *)
Definition keyText (k : string) : string := k.

(** The page of project 7 on its first tab, and two records. *)
Definition page7 : IterationPage.Page :=
  IterationPage.mkPage "unarchive" "7" (VNum 1) false None.

Definition sprint1 : IterationPage.Detail :=
  IterationPage.mkDetail (VNum 11) (VStr "Sprint 1") (VStr "first release")
    (VStr "2021-01-01T00:00:00Z") (VStr "2021-01-14T00:00:00Z") (VStr "UNFILED").

Definition sprint0 : IterationPage.Detail :=
  IterationPage.mkDetail (VNum 10) (VStr "Sprint 0") (VStr "setup")
    (VStr "2020-12-01T00:00:00Z") (VStr "2020-12-14T00:00:00Z") (VStr "FILED").

End Samples.

(** ** More sample data *)

Module MoreSamples.

Import ContractiveFilter.

(** A group of 201 options. *)
Definition optMany : Option :=
  mkOption "Many" (VStr "many") None (Some (repeat Samples.optOpen 201)).

(** Conditions of a bar: a fixed one, an optional one that is shown, an
    optional one that is hidden, and a text input. *)
Definition fixedCondition : ICondition.t :=
  ICondition.mk "project" "Project" select false (Some true) (Some 1%Z) None None false None.

Definition shownCondition : ICondition.t :=
  ICondition.mk "status" "Status" select false None (Some 2%Z) None None false None.

Definition hiddenCondition : ICondition.t :=
  ICondition.mk "owner" "Owner" memberSelector false None None None None false None.

Definition titleInput : ICondition.t :=
  ICondition.mk "title" "Title" input false None None None None false None.

Definition viewProps : Props :=
  mkProps None (Some (<["status" := VArr [VStr "open"]]> ∅)) 0.

Definition viewBar : Bar :=
  mkBar viewProps [titleInput; fixedCondition; shownCondition; hiddenCondition]
    (<["status" := VArr [VStr "open"]]> ∅)
    (<["status" := VArr [VStr "open"]]> ∅)
    ∅ (debounce 0).

(** The sample bar with an optional condition under the key "length" that
    holds the number 1: a value map that is array-like for lodash. *)
Definition lengthCondition : ICondition.t :=
  ICondition.mk "length" "Length" select false None None None None false None.

Definition arrayLikeBar : Bar :=
  mkBar (mkProps None None 0) [shownCondition; lengthCondition]
    (<["length" := VNum 1]> (<["status" := VArr [VStr "open"]]> ∅))
    (<["length" := VNum 1]> (<["status" := VArr [VStr "open"]]> ∅))
    ∅ (debounce 0).

(** A bar with an optional condition that is split off to the front row. *)
Definition splitCondition : ICondition.t :=
  ICondition.mk "branch" "Branch" select true None None None None false None.

Definition splitBar : Bar :=
  mkBar (mkProps None None 0) [fixedCondition; splitCondition]
    (<["branch" := VStr "main"]> ∅) (<["branch" := VStr "main"]> ∅)
    ∅ (debounce 0).

End MoreSamples.

(** * Properties *)

(** ** Option search *)

Section SearchFacts.

Import ContractiveFilter.

Variable toLowerCase : string -> string.

(** A loop that pushes the elements passing a test onto an array appends
    the filtered list. *)
Lemma push_loop_filter {A : Type} (p : A -> bool) (l acc : list A) :
  fold_left (fun acc x => if p x then acc ++ [x] else acc) l acc
  = acc ++ List.filter p l.
Proof.
  revert acc. induction l as [|x l IH]; intros acc; simpl.
  - by rewrite app_nil_r.
  - rewrite IH. destruct (p x); simpl; [by rewrite <- app_assoc | done].
Qed.

Lemma filter_nil_existsb {A : Type} (p : A -> bool) (l : list A) :
  Nat.eqb (length (List.filter p l)) 0 = negb (existsb p l).
Proof.
  induction l as [|x l IH]; simpl; [done|].
  destruct (p x); simpl; [done | exact IH].
Qed.

Lemma getSelectOptions_loop (f : string) (options acc : list Option) :
  fold_left
    (fun useableOptions item =>
       match children item with
       | Some cs =>
           let pushed :=
             fold_left
               (fun acc cItem =>
                  if filterMatch toLowerCase (label cItem) f then acc ++ [cItem] else acc)
               cs [] in
           let curOp := withChildren item pushed in
           if negb (Nat.eqb (length pushed) 0)
           then useableOptions ++ [curOp]
           else useableOptions
       | None =>
           if filterMatch toLowerCase (label item) f
           then useableOptions ++ [item]
           else useableOptions
       end)
    options acc
  = acc ++ selectOptionsSpec toLowerCase f options.
Proof.
  revert acc. induction options as [|o options IH]; intros acc; simpl.
  - unfold selectOptionsSpec. simpl. by rewrite app_nil_r.
  - rewrite IH. unfold selectOptionsSpec. simpl.
    unfold keepOption at 2, narrowOption at 2.
    destruct (children o) as [cs|] eqn:Hc.
    + rewrite push_loop_filter. simpl. rewrite filter_nil_existsb, negb_involutive.
      destruct (existsb _ cs); simpl.
      * unfold narrowOption at 1. rewrite Hc. by rewrite <- app_assoc.
      * done.
    + destruct (filterMatch toLowerCase (label o) f); simpl.
      * unfold narrowOption at 1. rewrite Hc. by rewrite <- app_assoc.
      * done.
Qed.

Lemma getSelectOptions_nonempty (f : string) (options : list Option) :
  f <> "" ->
  getSelectOptions toLowerCase options (Some f) = selectOptionsSpec toLowerCase f options.
Proof.
  intros Hf. unfold getSelectOptions.
  destruct (String.eqb_spec f "") as [->|_]; [done|].
  by rewrite getSelectOptions_loop.
Qed.

Lemma in_selectOptionsSpec (f : string) (options : list Option) (r : Option) :
  In r (selectOptionsSpec toLowerCase f options) <->
  exists o, In o options /\ keepOption toLowerCase f o = true
            /\ r = narrowOption toLowerCase f o.
Proof.
  unfold selectOptionsSpec. rewrite in_map_iff. split.
  - intros (o & <- & Hin). apply filter_In in Hin as [Hin Hk]. eauto.
  - intros (o & Hin & Hk & ->). exists o. split; [done|]. apply filter_In. done.
Qed.

(** [s.includes(sub)] holds exactly when [sub] occurs in [s]. *)
Lemma prefix_spec (p s : string) :
  String.prefix p s = true <-> exists post, s = String.append p post.
Proof.
  revert s. induction p as [|c p IH]; intros s; destruct s as [|d s]; simpl.
  - split; [intros _; by exists EmptyString | done].
  - split; [intros _; by exists (String d s) | done].
  - split; [done | intros [post H]; discriminate].
  - destruct (ascii_dec c d) as [->|Hne].
    + rewrite IH. split; intros [post H]; exists post.
      * exact (f_equal (String d) H).
      * change (String d s = String d (String.append p post)) in H. congruence.
    + split; [done|]. intros [post H].
      change (String d s = String c (String.append p post)) in H. congruence.
Qed.

Lemma strIncludes_spec (s sub : string) :
  strIncludes s sub = true <->
  exists pre post, s = String.append pre (String.append sub post).
Proof.
  induction s as [|c s IH].
  - change (strIncludes EmptyString sub) with (String.prefix sub EmptyString || false).
    rewrite orb_false_r, prefix_spec. split.
    + intros [post H]. exists EmptyString, post. exact H.
    + intros (pre & post & H). destruct pre as [|d pre].
      * exists post. exact H.
      * change (EmptyString
                = String d (String.append pre (String.append sub post))) in H.
        discriminate.
  - change (strIncludes (String c s) sub)
      with (String.prefix sub (String c s) || strIncludes s sub).
    rewrite orb_true_iff, prefix_spec, IH. split.
    + intros [[post H] | (pre & post & H)].
      * exists EmptyString, post. exact H.
      * exists (String c pre), post. exact (f_equal (String c) H).
    + intros (pre & post & H). destruct pre as [|d pre].
      * left. exists post. exact H.
      * right. exists pre, post.
        change (String c s
                = String d (String.append pre (String.append sub post))) in H.
        congruence.
Qed.

Lemma filterMatch_spec (v f : string) :
  filterMatch toLowerCase v f = true <->
  exists pre post,
    toLowerCase v = String.append pre (String.append (toLowerCase f) post).
Proof. apply strIncludes_spec. Qed.

(** C9: a label matches a search string when the label in lower case
    contains the search string in lower case, somewhere in it.  For the
    empty (or absent) search string [getSelectOptions] returns its input;
    for any other search string it returns, in the order of the input, the
    options without children whose label matches, and the options with
    children that have a matching child, each of these with its children
    narrowed to the matching ones, in their order.  Matching does not
    depend on the case of the label or of the search string beyond what
    lower-casing keeps. *)
Theorem getSelectOptions_correct (options : list Option) :
  (forall v f,
     filterMatch toLowerCase v f = true
     <-> exists pre post,
           toLowerCase v = String.append pre (String.append (toLowerCase f) post))
  /\ (forall v v' f f',
        toLowerCase v = toLowerCase v' -> toLowerCase f = toLowerCase f' ->
        filterMatch toLowerCase v f = filterMatch toLowerCase v' f')
  /\ getSelectOptions toLowerCase options None = options
  /\ getSelectOptions toLowerCase options (Some "") = options
  /\ (forall f, f <> "" ->
      let result := getSelectOptions toLowerCase options (Some f) in
      result = selectOptionsSpec toLowerCase f options /\
      (forall o, children o = None ->
         (In o result <->
          In o options
          /\ exists pre post,
               toLowerCase (label o)
               = String.append pre (String.append (toLowerCase f) post))) /\
      (forall o cs, In o options -> children o = Some cs ->
         (In (withChildren o (List.filter (fun c => filterMatch toLowerCase (label c) f) cs))
             result
          <-> exists c, In c cs
                        /\ exists pre post,
                             toLowerCase (label c)
                             = String.append pre (String.append (toLowerCase f) post))) /\
      (forall r cs', In r result -> children r = Some cs' ->
         cs' <> [] /\
         exists o cs, In o options /\ children o = Some cs /\
           cs' = List.filter (fun c => filterMatch toLowerCase (label c) f) cs /\
           (forall c, In c cs' <->
                      In c cs
                      /\ exists pre post,
                           toLowerCase (label c)
                           = String.append pre (String.append (toLowerCase f) post)) /\
           r = withChildren o cs')).
Proof.
  split; [apply filterMatch_spec|].
  split; [intros v v' f f' Hv Hf; unfold filterMatch; by rewrite Hv, Hf|].
  split; [done|]. split; [done|].
  intros f Hf result. subst result. rewrite (getSelectOptions_nonempty f options Hf).
  split; [done|]. split; [|split].
  - intros o Ho. rewrite in_selectOptionsSpec, <- filterMatch_spec. split.
    + intros (o' & Hin & Hk & ->). unfold keepOption in Hk. unfold narrowOption in *.
      destruct (children o') as [cs|] eqn:Hc; [simpl in Ho; discriminate|]. done.
    + intros [Hin Hm]. exists o. unfold keepOption, narrowOption. rewrite Ho. done.
  - intros o cs Hin Hc. rewrite in_selectOptionsSpec.
    assert ((exists c, In c cs
                       /\ exists pre post,
                            toLowerCase (label c)
                            = String.append pre (String.append (toLowerCase f) post))
            <-> exists c, In c cs /\ filterMatch toLowerCase (label c) f = true) as ->.
    { split; intros (c & Hcin & Hcm); exists c; split; try done;
        by apply filterMatch_spec. }
    split.
    + intros (o' & Hin' & Hk & Heq). unfold keepOption in Hk. unfold narrowOption in Heq.
      destruct (children o') as [cs0|] eqn:Hc'.
      * injection Heq as _ _ _ Hf'.
        apply existsb_exists in Hk as (c & Hcin & Hcm).
        assert (In c (List.filter (fun c => filterMatch toLowerCase (label c) f) cs)) as Hc2.
        { rewrite Hf'. apply filter_In. done. }
        apply filter_In in Hc2 as [? ?]. eauto.
      * rewrite <- Heq in Hc'. simpl in Hc'. discriminate.
    + intros (c & Hcin & Hcm). exists o. split; [done|].
      unfold keepOption, narrowOption. rewrite Hc. split; [|done].
      apply existsb_exists. eauto.
  - intros r cs' Hin Hc. apply in_selectOptionsSpec in Hin as (o & Hin & Hk & ->).
    unfold keepOption in Hk. unfold narrowOption in *.
    destruct (children o) as [cs|] eqn:Hco; [|congruence].
    simpl in Hc. injection Hc as <-. split.
    + apply existsb_exists in Hk as (c & Hcin & Hcm). intros Hnil.
      assert (In c (List.filter (fun c => filterMatch toLowerCase (label c) f) cs)) as Hc2
        by (apply filter_In; done).
      rewrite Hnil in Hc2. destruct Hc2.
    + exists o, cs. split; [done|]. split; [done|]. split; [done|]. split; [|done].
      intros c. by rewrite filter_In, filterMatch_spec.
Qed.

End SearchFacts.

Section SearchExamples.

Import ContractiveFilter.

(** Searching "OPEN": the options "Open" and "Reopened" match whatever the
    case, the group "States" is kept with its two matching children, and
    the group "Open group", which has no children, is dropped although its
    own label matches. *)
Example getSelectOptions_sample :
  getSelectOptions Samples.asciiLower
    [Samples.optOpen; Samples.optClosed; Samples.optStates; Samples.optNoChildren]
    (Some "OPEN")
  = [Samples.optOpen;
     withChildren Samples.optStates [Samples.optOpen; Samples.optReopened]].
Proof. reflexivity. Qed.

End SearchExamples.

(** ** The select dropdown: "load more" *)

Section LoadMoreFacts.

Import ContractiveFilter ContractiveFilter.SelectFilterItem.

Variable toLowerCase : string -> string.

Lemma slice0_nonneg {A : Type} (l : list A) (n : Z) :
  (0 <= n)%Z -> slice0 l n = firstn (Z.to_nat n) l.
Proof.
  intros Hn. unfold slice0. destruct (n <? 0)%Z eqn:E; [lia | done].
Qed.

Lemma initialHasMore_true (itemData : ICondition.t) (n : Z) :
  ICondition.firstShowLength itemData = Some n ->
  (0 < n)%Z -> (n < optionsLength itemData)%Z ->
  initialHasMore itemData = true.
Proof.
  intros Hn Hpos Hlt. unfold initialHasMore, firstShowLength. rewrite Hn. simpl.
  destruct (n =? 0)%Z eqn:E; [lia|]. simpl. lia.
Qed.

Lemma initialHasMore_false (itemData : ICondition.t) :
  ICondition.firstShowLength itemData = None
  \/ ICondition.firstShowLength itemData = Some 0%Z
  \/ (exists n, ICondition.firstShowLength itemData = Some n
                /\ (optionsLength itemData <= n)%Z) ->
  initialHasMore itemData = false.
Proof.
  unfold initialHasMore, firstShowLength.
  intros [-> | [-> | (n & -> & Hle)]]; simpl; [done | done |].
  destruct (n =? 0)%Z; simpl; [done | lia].
Qed.

(** Searching does not touch [hasMore]; "load more" does not touch the
    search text. *)
Lemma onSearch_hasMore (itemData : ICondition.t) (v : string) (st : SelectState) :
  hasMore (onSearch toLowerCase itemData v st) = hasMore st.
Proof. done. Qed.

Lemma onLoadMore_filterOptions (itemData : ICondition.t) (st : SelectState) :
  filterOptions toLowerCase itemData (onLoadMore st)
  = filterOptions toLowerCase itemData st.
Proof. done. Qed.

(** C3, as the code has it: with [firstShowLength] set to a positive number
    [n] and more than [n] options, the dropdown (before "load more" is
    clicked, whatever has been searched) renders the first [n] options of
    the filtered list and the "load more" control, and after a click on
    the control the whole filtered list and no control; with
    [firstShowLength] unset or zero, or no more options than it, the whole
    filtered list is rendered from the start and no control. *)
Theorem load_more_truncation (itemData : ICondition.t) (st : SelectState) :
  hasMore st = hasMore (initialState itemData) ->
  (forall n, ICondition.firstShowLength itemData = Some n ->
     (0 < n)%Z -> (n < optionsLength itemData)%Z ->
     optionNodes (menu toLowerCase itemData st)
       = List.map (renderOption itemData)
           (firstn (Z.to_nat n) (filterOptions toLowerCase itemData st))
     /\ loadMore (menu toLowerCase itemData st) = true
     /\ optionNodes (menu toLowerCase itemData (onLoadMore st))
        = List.map (renderOption itemData) (filterOptions toLowerCase itemData st)
     /\ loadMore (menu toLowerCase itemData (onLoadMore st)) = false)
  /\
  (ICondition.firstShowLength itemData = None
   \/ ICondition.firstShowLength itemData = Some 0%Z
   \/ (exists n, ICondition.firstShowLength itemData = Some n
                 /\ (optionsLength itemData <= n)%Z) ->
   optionNodes (menu toLowerCase itemData st)
     = List.map (renderOption itemData) (filterOptions toLowerCase itemData st)
   /\ loadMore (menu toLowerCase itemData st) = false).
Proof.
  intros Hst. simpl in Hst. split.
  - intros n Hn Hpos Hlt.
    rewrite (initialHasMore_true itemData n Hn Hpos Hlt) in Hst.
    unfold menu, useOptions. simpl. rewrite Hst.
    unfold firstShowLength at 1. rewrite Hn. simpl.
    rewrite slice0_nonneg by lia. done.
  - intros Hcase. rewrite (initialHasMore_false itemData Hcase) in Hst.
    unfold menu, useOptions. simpl. rewrite Hst. done.
Qed.

End LoadMoreFacts.

Section LoadMoreExamples.

Import ContractiveFilter ContractiveFilter.SelectFilterItem.

(** The theorem at a condition with three options and [firstShowLength: 2]:
    two options and the control at first, all three after the click. *)
Lemma load_more_truncation_witness :
  optionNodes (menu Samples.asciiLower Samples.firstTwo (initialState Samples.firstTwo))
    = [OptionItemNode Samples.optOpen; OptionItemNode Samples.optClosed]
  /\ loadMore (menu Samples.asciiLower Samples.firstTwo (initialState Samples.firstTwo)) = true
  /\ optionNodes (menu Samples.asciiLower Samples.firstTwo
                    (onLoadMore (initialState Samples.firstTwo)))
     = [OptionItemNode Samples.optOpen; OptionItemNode Samples.optClosed;
        OptionItemNode Samples.optReopened]
  /\ loadMore (menu Samples.asciiLower Samples.firstTwo
                 (onLoadMore (initialState Samples.firstTwo))) = false.
Proof.
  exact (proj1 (load_more_truncation Samples.asciiLower Samples.firstTwo
                  (initialState Samples.firstTwo) eq_refl)
           2%Z eq_refl eq_refl eq_refl).
Defined.

(** C3 as stated fails at [firstShowLength: 0]: the field is set and the
    one option is more than zero options, yet the option is rendered and
    there is no "load more" control, where the claim has the first zero
    options and the control. *)
Lemma load_more_zero_counterexample :
  ICondition.firstShowLength Samples.firstZero = Some 0%Z
  /\ (0 < optionsLength Samples.firstZero)%Z
  /\ optionNodes (menu Samples.asciiLower Samples.firstZero (initialState Samples.firstZero))
     = [OptionItemNode Samples.optOpen]
  /\ optionNodes (menu Samples.asciiLower Samples.firstZero (initialState Samples.firstZero))
     <> List.map (renderOption Samples.firstZero)
          (firstn 0 (filterOptions Samples.asciiLower Samples.firstZero
                       (initialState Samples.firstZero)))
  /\ loadMore (menu Samples.asciiLower Samples.firstZero (initialState Samples.firstZero))
     = false.
Proof.
  repeat split; try reflexivity. discriminate.
Qed.

End LoadMoreExamples.

(** ** The bar: change propagation *)

Section BarFacts.

Import ContractiveFilter.

Lemma sameConfig_refl (b : Bar) : sameConfig b b.
Proof. by unfold sameConfig. Qed.

Lemma sameConfig_trans (b1 b2 b3 : Bar) :
  sameConfig b1 b2 -> sameConfig b2 b3 -> sameConfig b1 b3.
Proof.
  unfold sameConfig. intros (? & ? & ?) (? & ? & ?). repeat split; congruence.
Qed.

Lemma handelItemChange_config (b : Bar) (arg : ChangeArg) (force : bool) :
  sameConfig b (fst (handelItemChange b arg force)).
Proof. by unfold sameConfig. Qed.

Lemma handleClearSelected_config (b : Bar) :
  sameConfig b (fst (handleClearSelected b)).
Proof.
  unfold handleClearSelected. destruct (clearedValueMap b); by unfold sameConfig.
Qed.

Lemma onCloseClick_config (b : Bar) (item : ICondition.t) :
  sameConfig b (fst (onCloseClick b item)).
Proof.
  unfold onCloseClick. destruct (getProp _ _); by unfold sameConfig.
Qed.

Lemma onItemEvent_config (item : ICondition.t) (b : Bar) (e : ItemEvent) :
  sameConfig b (fst (onItemEvent item b e)).
Proof. destruct e; by unfold sameConfig. Qed.

Lemma onItemEvents_config (item : ICondition.t) (es : list ItemEvent) (b : Bar) :
  sameConfig b (fst (onItemEvents item b es)).
Proof.
  revert b. induction es as [|e es IH]; intros b; simpl.
  - apply sameConfig_refl.
  - pose proof (onItemEvent_config item b e) as H1.
    destruct (onItemEvent item b e) as [b1 calls1]. simpl in H1.
    pose proof (IH b1) as H2.
    destruct (onItemEvents item b1 es) as [b2 calls2]. simpl in *.
    eapply sameConfig_trans; eauto.
Qed.

Lemma handle_config (b : Bar) (ev : BarEvent) :
  sameConfig b (fst (handle b ev)).
Proof.
  destruct ev as [item es| |item|vs]; simpl.
  - apply onItemEvents_config.
  - apply handleClearSelected_config.
  - apply onCloseClick_config.
  - by unfold sameConfig.
Qed.

Lemma step_fst (b : Bar) (ev : BarEvent) :
  fst (step b ev) = commit (fst (handle b ev)).
Proof. unfold step. by destruct (handle b ev). Qed.

(** In every state of a mounted bar the ref holds the current value map,
    the debounced instance is the one made at mount from the [delay]
    prop, and [delay] and [initValue] are those of the mount. *)
Lemma reachable_invariant (p : Props) (b : Bar) :
  reachable p b ->
  valueMapRef b = valueMap b
  /\ debouncedChange b = debounce (delay p)
  /\ delay (props b) = delay p
  /\ initValue (props b) = initValue p.
Proof.
  induction 1 as [b (Hp & _ & Hr & _ & Hd)|b ev _ (IH1 & IH2 & IH3 & IH4)].
  - subst p. done.
  - rewrite step_fst. destruct (handle_config b ev) as (H1 & H2 & H3).
    simpl. repeat split; congruence.
Qed.

Lemma commit_reachable (p : Props) (b : Bar) :
  reachable p b -> commit b = b.
Proof.
  intros Hr. destruct (reachable_invariant p b Hr) as (Href & _).
  destruct b. simpl in *. unfold commit. simpl. by rewrite Href.
Qed.

(** C2: when an item raises a change, the bar sets the changed key in the
    value map and calls upstream with the value map so updated and the
    changed key, once: on the debounced instance, which was made with the
    bar's [delay], when [delay] is not zero and the change is not forced,
    and on [onChange] itself when [delay] is zero or the change is forced,
    as are the changes of a text input. *)
Theorem item_change_notifies (p : Props) (b : Bar) (item : ICondition.t)
    (key : string) (value : jsval) (forceChange : bool) :
  reachable p b ->
  valueMap (fst (onItemEvent item b (ItemChange key value forceChange)))
    = <[key := value]> (valueMap b)
  /\ debouncedChange b = debounce (delay p)
  /\ (delay p <> 0%Z -> forceChange = false ->
      snd (onItemEvent item b (ItemChange key value forceChange))
      = [CallDebouncedChange (debounce (delay p))
           (<[key := value]> (valueMap b)) (VStr key)])
  /\ (delay p = 0%Z \/ forceChange = true ->
      snd (onItemEvent item b (ItemChange key value forceChange))
      = [CallOnChange (<[key := value]> (valueMap b)) (VStr key)])
  /\ (forall inputVal,
        snd (onItemEvents item b (InputFilterItem_onChange item inputVal))
        = [CallOnChange (<[ICondition.key item := VStr inputVal]> (valueMap b))
             (VStr (ICondition.key item))]).
Proof.
  intros Hr. destruct (reachable_invariant p b Hr) as (Href & Hd & Hdelay & _).
  simpl. rewrite Href, Hd, Hdelay. split; [done|]. split; [done|].
  split; [|split].
  - intros Hnz ->. destruct (delay p =? 0)%Z eqn:E; [lia|]. done.
  - intros [Hz | ->].
    + rewrite Hz. done.
    + by rewrite andb_false_r.
  - intros inputVal. by rewrite andb_false_r.
Qed.

End BarFacts.

Section BarExamples.

Import ContractiveFilter.

Lemma delayedBar_reachable : reachable Samples.delayedProps Samples.delayedBar.
Proof. apply reach_mounted. by unfold mounted. Qed.

(** The theorem at a bar with a delay of 300 ms: a select item's change
    goes through the debounced instance, a text input's does not. *)
Lemma item_change_notifies_witness :
  snd (onItemEvent Samples.statusCondition Samples.delayedBar
         (ItemChange "status" (VArr [VStr "open"]) false))
  = [CallDebouncedChange (debounce 300)
       (<["status" := VArr [VStr "open"]]> ∅) (VStr "status")]
  /\ snd (onItemEvents Samples.statusCondition Samples.delayedBar
            (InputFilterItem_onChange Samples.statusCondition "abc"))
     = [CallOnChange (<["status" := VStr "abc"]> ∅) (VStr "status")].
Proof.
  pose proof (item_change_notifies Samples.delayedProps Samples.delayedBar
                Samples.statusCondition "status" (VArr [VStr "open"]) false
                delayedBar_reachable) as (_ & _ & H1 & _ & H2).
  split.
  - apply H1; [discriminate | reflexivity].
  - apply H2.
Defined.

End BarExamples.

(** ** Required conditions *)

Section RequiredFacts.

Import ContractiveFilter.

Lemma filter_app_singleton_nonempty {A : Type} (l : list A) (x : A) : l ++ [x] <> [].
Proof. destruct l; discriminate. Qed.

Lemma length_zero_nil {A : Type} (l : list A) : Nat.eqb (length l) 0 = true <-> l = [].
Proof. destruct l; simpl; split; intros; done. Qed.

(** What the global "Clear selected" leaves under a key that is in the
    value map, when lodash walks the keys of the map. *)
Lemma handleClearSelected_lookup (b : Bar) (k : string) (v0 : jsval) :
  arrayLikeLength (valueMap b) = None ->
  valueMap b !! k = Some v0 ->
  let cleared :=
    if lookedUpStaysOnClear (arrayGet (conditions b) k) then v0
    else nullish (optGetProp (initValue (props b)) k) VUndef in
  valueMap (fst (handleClearSelected b)) !! k = Some cleared
  /\ exists m keyArg,
       (snd (handleClearSelected b) = [CallDebouncedChange (debouncedChange b) m keyArg]
        \/ snd (handleClearSelected b) = [CallOnChange m keyArg])
       /\ m !! k = Some cleared.
Proof.
  intros Hobj Hk cleared. subst cleared.
  unfold handleClearSelected, clearedValueMap, handelItemChange. rewrite Hobj. simpl.
  split.
  - apply lookup_union_Some_l. rewrite map_lookup_imap, Hk. done.
  - eexists _, _. split.
    + match goal with |- context [if ?c then _ else _] => destruct c end;
        [left | right]; reflexivity.
    + apply lookup_union_Some_l. rewrite map_lookup_imap, Hk. done.
Qed.

(** C1, as the code has it: for a required select condition, a click on
    the selected option in single-select mode, and a click that would
    deselect the last selected option in multi-select mode, raise no event,
    so that the bar has nothing to serve and its value map stays as it is;
    whatever a click on an option does raise carries the clicked option's
    value or a non-empty list; and the condition's "Clear selected" link
    is not rendered.  The global "Clear selected" of the bar does not look
    at [required]: on a value map that lodash walks by its keys (one with
    no [length] entry that is an integer from 0 to 2^53 - 1), for a
    condition that is not fixed (and whose key is not the numeral of a
    position in the condition list), it resets the entry of the value map
    to the [initValue] entry, and to [undefined] when there is none. *)
Theorem required_value_guards (itemData : ICondition.t) :
  ICondition.required itemData = true ->
  (forall value vs opt,
     SelectFilterItem.isSingleMode itemData = true ->
     SelectFilterItem._value value = Some vs ->
     arrIncludes vs (ContractiveFilter.value opt) = true ->
     SelectFilterItem.onClickOptItem itemData value opt = Some [])
  /\ (forall value vs opt,
        SelectFilterItem.isSingleMode itemData = false ->
        SelectFilterItem._value value = Some vs ->
        arrIncludes vs (ContractiveFilter.value opt) = true ->
        List.filter (fun v => negb (strictEq v (ContractiveFilter.value opt))) vs = [] ->
        SelectFilterItem.onClickOptItem itemData value opt = Some [])
  /\ (forall p b, reachable p b -> step b (ItemAction itemData []) = (b, []))
  /\ (forall value opt es key v force,
        SelectFilterItem.onClickOptItem itemData value opt = Some es ->
        In (ItemChange key v force) es ->
        key = ICondition.key itemData
        /\ (v = ContractiveFilter.value opt \/ exists newVal, v = VArr newVal /\ newVal <> []))
  /\ (forall toLowerCase st info,
        SelectFilterItem.selectInfo (SelectFilterItem.menu toLowerCase itemData st)
        = Some info ->
        SelectFilterItem.clearSelected info = None)
  /\ (forall b v0,
        In itemData (conditions b) ->
        conditionStaysOnClear itemData = false ->
        arrayLikeLength (valueMap b) = None ->
        arrayGet (conditions b) (ICondition.key itemData) = None ->
        valueMap b !! ICondition.key itemData = Some v0 ->
        valueMap (fst (handleClearSelected b)) !! ICondition.key itemData
          = Some (nullish (optGetProp (initValue (props b)) (ICondition.key itemData)) VUndef)
        /\ exists m keyArg,
             (snd (handleClearSelected b) = [CallDebouncedChange (debouncedChange b) m keyArg]
              \/ snd (handleClearSelected b) = [CallOnChange m keyArg])
             /\ m !! ICondition.key itemData
                = Some (nullish (optGetProp (initValue (props b)) (ICondition.key itemData))
                          VUndef)).
Proof.
  intros Hreq. repeat apply conj.
  - intros value vs opt Hs Hv Hin. unfold SelectFilterItem.onClickOptItem.
    rewrite Hv, Hs, Hreq, Hin. done.
  - intros value vs opt Hs Hv Hin Hnil. unfold SelectFilterItem.onClickOptItem.
    rewrite Hv, Hs, Hreq, Hin, Hnil. done.
  - intros p b Hr. unfold step. simpl. by rewrite (commit_reachable p b Hr).
  - intros value opt es key v force Hes Hin.
    unfold SelectFilterItem.onClickOptItem in Hes.
    destruct (SelectFilterItem._value value) as [vs|]; [|discriminate].
    injection Hes as <-. rewrite Hreq in Hin. simpl in Hin.
    destruct (SelectFilterItem.isSingleMode itemData).
    + destruct (arrIncludes vs (ContractiveFilter.value opt)); simpl in Hin; [done|].
      destruct Hin as [Heq | [Heq | []]]; [|discriminate].
      injection Heq as <- <- <-. split; [done | by left].
    + destruct (arrIncludes vs (ContractiveFilter.value opt)).
      * destruct (Nat.eqb _ 0) eqn:E; simpl in Hin; [done|].
        destruct Hin as [Heq | []]. injection Heq as <- <- <-. split; [done|].
        right. eexists. split; [done|]. intros Hnil. rewrite Hnil in E. discriminate.
      * destruct (Nat.eqb _ 0) eqn:E; simpl in Hin; [done|].
        destruct Hin as [Heq | []]. injection Heq as <- <- <-. split; [done|].
        right. eexists. split; [done|]. apply filter_app_singleton_nonempty.
  - intros toLowerCase st info. unfold SelectFilterItem.menu. simpl. rewrite Hreq.
    destruct (negb (SelectFilterItem.isSingleMode itemData)); [|discriminate].
    intros Heq. injection Heq as <-. done.
  - intros b v0 _ _ Hobj Hget Hk.
    pose proof (handleClearSelected_lookup b (ICondition.key itemData) v0 Hobj Hk) as H.
    rewrite Hget in H. exact H.
Qed.

End RequiredFacts.

Section RequiredExamples.

Import ContractiveFilter.

(** The theorem at the required "status" condition with "open" selected:
    a click on "open" raises nothing, and the global "Clear selected"
    leaves [undefined] under "status". *)
Lemma required_value_guards_witness :
  SelectFilterItem.onClickOptItem Samples.statusCondition (VArr [VStr "open"])
    Samples.optOpen = Some []
  /\ valueMap (fst (handleClearSelected Samples.statusBar)) !! "status" = Some VUndef.
Proof.
  pose proof (required_value_guards Samples.statusCondition eq_refl)
    as (_ & Hmulti & _ & _ & _ & Hclear).
  split.
  - exact (Hmulti (VArr [VStr "open"]) [VStr "open"] Samples.optOpen
             eq_refl eq_refl eq_refl eq_refl).
  - exact (proj1 (Hclear Samples.statusBar (VArr [VStr "open"])
                    (or_introl eq_refl) eq_refl eq_refl eq_refl eq_refl)).
Defined.

(** C1 as stated fails at the global "Clear selected": on a bar that shows
    a required condition with one option selected and has no [initValue],
    the click leaves [undefined] under the condition's key, in the bar's
    value map and in the value map handed to [onChange]. *)
Lemma clear_selected_required_counterexample :
  reachable Samples.statusProps Samples.statusBar
  /\ 0 < displayConditionsLen (conditions Samples.statusBar)
  /\ ICondition.required Samples.statusCondition = true
  /\ In Samples.statusCondition (conditions Samples.statusBar)
  /\ valueMap Samples.statusBar !! "status" = Some (VArr [VStr "open"])
  /\ valueMap (fst (step Samples.statusBar ClickClearSelected)) !! "status" = Some VUndef
  /\ snd (step Samples.statusBar ClickClearSelected)
     = [CallOnChange (<["status" := VUndef]> ∅) VUndef].
Proof.
  split; [apply reach_mounted; by unfold mounted|].
  split; [vm_compute; lia|].
  repeat split; try reflexivity. by left.
Qed.

End RequiredExamples.

(** ** The duration range *)

Section DurationFacts.

Import ContractiveFilter.

Variable transformDuration : jsval -> jsval.
Variable wrongDuration : string.

Lemma isNumber_VNum (v : jsval) : isNumber v = true <-> exists n, v = VNum n.
Proof.
  split.
  - destruct v; try discriminate. eauto.
  - intros [n ->]. done.
Qed.

(** C4: a change of the duration range raises the change with the new pair
    when both ends transform to numbers and the minimum is at most the
    maximum; shows the error message and raises no change, so that the bar
    and its value map stay as they are, when both are numbers and the
    minimum is above the maximum; raises the change with the empty list
    when neither end is a number; and does nothing when exactly one end is
    a number.  Conversely a change with the new pair is only raised in the
    first case (or, for a new value that is itself the empty list, in the
    third, whose fresh empty list the model does not tell apart from it). *)
Theorem duration_range_change (itemData : ICondition.t) (v : jsval) :
  let durationMin := transformDuration (optIndex v 0) in
  let durationMax := transformDuration (optIndex v 1) in
  let raised := TimeSpanFilterItem.onChange transformDuration wrongDuration itemData v in
  (forall lo hi, durationMin = VNum lo -> durationMax = VNum hi -> (lo <= hi)%Z ->
     raised = [ItemChange (ICondition.key itemData) v false])
  /\ (forall lo hi, durationMin = VNum lo -> durationMax = VNum hi -> (hi < lo)%Z ->
        raised = [MessageError wrongDuration]
        /\ forall p b, reachable p b ->
             step b (ItemAction itemData raised) = (b, [CallMessageError wrongDuration]))
  /\ (isNumber durationMin = false -> isNumber durationMax = false ->
        raised = [ItemChange (ICondition.key itemData) (VArr []) false])
  /\ (isNumber durationMin <> isNumber durationMax -> raised = [])
  /\ (forall key force, In (ItemChange key v force) raised ->
        (exists lo hi, durationMin = VNum lo /\ durationMax = VNum hi /\ (lo <= hi)%Z)
        \/ (v = VArr [] /\ isNumber durationMin = false /\ isNumber durationMax = false)).
Proof.
  intros durationMin durationMax raised. subst raised.
  unfold TimeSpanFilterItem.onChange. fold durationMin durationMax.
  repeat apply conj.
  - intros lo hi -> -> Hle. simpl. destruct (lo <=? hi)%Z eqn:E; [done | lia].
  - intros lo hi -> -> Hlt. simpl. destruct (lo <=? hi)%Z eqn:E; [lia|].
    split; [done|]. intros p b Hr. unfold step. simpl.
    by rewrite (commit_reachable p b Hr).
  - intros -> ->. done.
  - destruct (isNumber durationMin), (isNumber durationMax); done.
  - intros key force Hin.
    destruct (isNumber durationMin) eqn:E1, (isNumber durationMax) eqn:E2; simpl in Hin.
    + apply isNumber_VNum in E1 as [lo Hlo]. apply isNumber_VNum in E2 as [hi Hhi].
      rewrite Hlo, Hhi in *. simpl in Hin.
      destruct (lo <=? hi)%Z eqn:E; simpl in Hin.
      * left. exists lo, hi. repeat split. lia.
      * destruct Hin as [Heq | []]. discriminate.
    + destruct Hin.
    + destruct Hin.
    + destruct Hin as [Heq | []]. injection Heq as _ <- _. right. done.
Qed.

End DurationFacts.

Section DurationExamples.

Import ContractiveFilter.

(** A range of 5 to 3 is refused with the message, a range of 3 to 5 is
    raised, a range with no end set clears the value, and a range with one
    end set is ignored. *)
Example duration_samples :
  TimeSpanFilterItem.onChange Samples.numberDuration "wrong duration"
    Samples.durationCondition (VArr [VNum 5; VNum 3])
  = [MessageError "wrong duration"]
  /\ TimeSpanFilterItem.onChange Samples.numberDuration "wrong duration"
       Samples.durationCondition (VArr [VNum 3; VNum 5])
     = [ItemChange "duration" (VArr [VNum 3; VNum 5]) false]
  /\ TimeSpanFilterItem.onChange Samples.numberDuration "wrong duration"
       Samples.durationCondition VUndef
     = [ItemChange "duration" (VArr []) false]
  /\ TimeSpanFilterItem.onChange Samples.numberDuration "wrong duration"
       Samples.durationCondition (VArr [VNum 3])
     = [].
Proof. repeat split. Qed.

End DurationExamples.

(** ** Quick add *)

Section QuickSaveFacts.

Import ContractiveFilter.

Variable canNotBeEmpty : string.
Variable alreadyExists : string.
Variable options : option (list Option).

(** The two messages are texts, not the empty string. *)
Hypothesis canNotBeEmpty_text : canNotBeEmpty <> "".
Hypothesis alreadyExists_text : alreadyExists <> "".

Lemma existsb_eqb_In (x : string) (l : list string) :
  existsb (String.eqb x) l = true <-> In x l.
Proof.
  rewrite existsb_exists. split.
  - intros (y & Hin & Heq). apply String.eqb_eq in Heq. by subst.
  - intros Hin. exists x. split; [done|]. apply String.eqb_refl.
Qed.

(** The tip always is the one computed for the text in the field. *)
Lemma tip_invariant (st : QuickSave.QuickSaveState) :
  QuickSave.reachableState canNotBeEmpty alreadyExists options st ->
  QuickSave.tip st
  = QuickSave.tipFor canNotBeEmpty alreadyExists options (QuickSave.v st).
Proof.
  induction 1 as [|st ev _ IH].
  - done.
  - destruct ev as [text|]; simpl; unfold QuickSave.setV.
    + destruct (String.eqb text (QuickSave.v st)); done.
    + destruct (String.eqb "" (QuickSave.v st)); done.
Qed.

Lemma tipFor_empty (x : string) :
  QuickSave.tipFor canNotBeEmpty alreadyExists options x = ""
  <-> x <> "" /\ ~ In x (QuickSave.labels options).
Proof.
  unfold QuickSave.tipFor. destruct (String.eqb_spec x "") as [->|Hx].
  - split; [done | by intros [? _]].
  - destruct (existsb (String.eqb x) (QuickSave.labels options)) eqn:E.
    + apply existsb_eqb_In in E. split; [done | by intros [_ ?]].
    + split; [|done]. intros _. split; [done|]. intros Hin.
      apply existsb_eqb_In in Hin. congruence.
Qed.

(** C10: a click on "Save" calls [onSave], with the entered text, exactly
    when the text is not empty and is not the label of an option; with an
    empty text or the label of an option it calls nothing; and in every
    case it leaves the control as it was at first, with an empty field. *)
Theorem quick_save_guard (st : QuickSave.QuickSaveState) :
  QuickSave.reachableState canNotBeEmpty alreadyExists options st ->
  (snd (QuickSave.save canNotBeEmpty alreadyExists options st) = [QuickSave.v st]
   <-> QuickSave.v st <> "" /\ ~ In (QuickSave.v st) (QuickSave.labels options))
  /\ (QuickSave.v st = "" \/ In (QuickSave.v st) (QuickSave.labels options) ->
      snd (QuickSave.save canNotBeEmpty alreadyExists options st) = [])
  /\ (snd (QuickSave.save canNotBeEmpty alreadyExists options st) = [QuickSave.v st]
      \/ snd (QuickSave.save canNotBeEmpty alreadyExists options st) = [])
  /\ QuickSave.v (fst (QuickSave.save canNotBeEmpty alreadyExists options st)) = ""
  /\ fst (QuickSave.save canNotBeEmpty alreadyExists options st)
     = QuickSave.init canNotBeEmpty.
Proof.
  intros Hr. pose proof (tip_invariant st Hr) as Htip.
  pose proof (tipFor_empty (QuickSave.v st)) as Hempty. rewrite <- Htip in Hempty.
  unfold QuickSave.save. simpl.
  assert (QuickSave.setV canNotBeEmpty alreadyExists options "" st
          = QuickSave.init canNotBeEmpty) as Hnext.
  { unfold QuickSave.setV, QuickSave.init.
    destruct (String.eqb_spec "" (QuickSave.v st)) as [Hv|Hv]; [|done].
    destruct st as [x tp]. simpl in *. subst x. rewrite Htip. done. }
  rewrite Hnext.
  destruct (String.eqb_spec (QuickSave.tip st) "") as [Ht|Ht].
  - apply Hempty in Ht as Hok. repeat split; try done; try tauto.
  - assert (~ (QuickSave.v st <> ""
               /\ ~ In (QuickSave.v st) (QuickSave.labels options))) as Hno
      by (intros H; apply Ht, Hempty, H).
    repeat split; try done; try tauto.
Qed.

End QuickSaveFacts.

Section QuickSaveExamples.

Import ContractiveFilter.

(** The theorem after "Open", the label of an option, has been typed:
    "Save" calls nothing and empties the field. *)
Lemma quick_save_guard_witness :
  QuickSave.save "can not be empty" "Name already exists" (Some [Samples.optOpen])
    (QuickSave.mkQuickSaveState "Open" "Name already exists")
  = (QuickSave.mkQuickSaveState "" "can not be empty", []).
Proof.
  pose proof (quick_save_guard "can not be empty" "Name already exists"
                (Some [Samples.optOpen])
                ltac:(discriminate) ltac:(discriminate)
                (QuickSave.mkQuickSaveState "Open" "Name already exists")
                (QuickSave.reach_event _ _ _ _ (QuickSave.Type_ "Open")
                   (QuickSave.reach_init _ _ _)))
    as (_ & Hdup & _ & _ & Hinit).
  apply injective_projections.
  - exact Hinit.
  - apply Hdup. right. by left.
Defined.

(** A new name is handed to [onSave]. *)
Example quick_save_new_name :
  QuickSave.onEvent "can not be empty" "Name already exists" (Some [Samples.optOpen])
    (fst (QuickSave.onEvent "can not be empty" "Name already exists"
            (Some [Samples.optOpen])
            (QuickSave.init "can not be empty") (QuickSave.Type_ "Blocked")))
    QuickSave.ClickSave
  = (QuickSave.init "can not be empty", ["Blocked"]).
Proof. reflexivity. Qed.

End QuickSaveExamples.

(** ** The iteration list *)

Section IterationFacts.

Import IterationPage.

Variable t : string -> string.
Variable toNumber : string -> jsval.

(** The payload of a fetch of page 1 in the state of the tab [status]. *)
Lemma getList_page1 (s : Page) :
  getList toNumber s (<["pageNo" := VNum 1]> ∅)
  = getIterations
      (<["projectID" := toNumber (projectId s)]>
         (<["state" := iterationStateOf (status s)]> (<["pageNo" := VNum 1]> ∅))).
Proof.
  unfold getList, query.
  assert (<["pageNo" := VNum 1]> ∅
            ∪ <["state" := iterationStateOf (status s)]> (<["pageNo" := VNum 1]> ∅)
          = <["state" := iterationStateOf (status s)]>
              (<["pageNo" := VNum 1]> (∅ : gmap string jsval))) as ->; [|done].
  apply map_eq. intros i.
  destruct (decide (i = "pageNo")) as [->|Hp].
  - rewrite (lookup_union_Some_l _ _ _ (VNum 1)) by (by rewrite lookup_insert_eq).
    rewrite lookup_insert_ne by done. by rewrite lookup_insert_eq.
  - rewrite lookup_union_r by (by rewrite lookup_insert_ne).
    done.
Qed.

Lemma getList_empty (s : Page) :
  getList toNumber s ∅
  = getIterations
      (<["projectID" := toNumber (projectId s)]>
         (<["state" := iterationStateOf (status s)]> (<["pageNo" := VNum 1]> ∅))).
Proof. unfold getList, query. by rewrite (left_id_L ∅ (∪)). Qed.

(** C5: selecting a tab other than the current one sets off exactly one
    fetch, whose payload is the state ['FILED'] for the tab ['archived']
    and ['UNFILED'] for the tab ['unarchive'], page number 1, and the
    project id of the route as a number; this is the payload of every
    plain [getList()] while that tab is selected. *)
Theorem tab_selection_fetch (s : Page) (v : string) :
  In v (List.map fst (options t)) ->
  v <> status s ->
  onTabChange toNumber v s
  = (setStatus v s,
     [getIterations
        (<["projectID" := toNumber (projectId s)]>
           (<["state" := VStr (if String.eqb v "archived" then "FILED" else "UNFILED")]>
              (<["pageNo" := VNum 1]> ∅)))])
  /\ getList toNumber (setStatus v s) ∅
     = getIterations
         (<["projectID" := toNumber (projectId s)]>
            (<["state" := VStr (if String.eqb v "archived" then "FILED" else "UNFILED")]>
               (<["pageNo" := VNum 1]> ∅))).
Proof.
  intros Hv Hne.
  assert (iterationStateOf v
          = VStr (if String.eqb v "archived" then "FILED" else "UNFILED")) as Hst.
  { simpl in Hv. destruct Hv as [<- | [<- | []]]; reflexivity. }
  unfold onTabChange, renderEffects. rewrite getList_empty. simpl.
  rewrite Hst. split; [|done].
  destruct (String.eqb_spec (status s) v) as [Heq|_]; [congruence|]. done.
Qed.

(** C8: archiving or unarchiving a record calls the update effect once,
    with the record's id, start, end, title and content and with the
    requested state, and with nothing else; when the call resolves, the
    list is fetched again at page 1 for the current tab and project. *)
Theorem onFiled_payload (s : Page) (record : Detail) (operation : string) :
  exists payload,
    onFiled toNumber s record operation
    = [handleFiledIteration payload
         [getIterations
            (<["projectID" := toNumber (projectId s)]>
               (<["state" := iterationStateOf (status s)]>
                  (<["pageNo" := VNum 1]> ∅)))]]
    /\ payload !! "id" = Some (id record)
    /\ payload !! "startedAt" = Some (startedAt record)
    /\ payload !! "finishedAt" = Some (finishedAt record)
    /\ payload !! "title" = Some (title record)
    /\ payload !! "content" = Some (content record)
    /\ payload !! "state" = Some (VStr operation)
    /\ (forall k, is_Some (payload !! k) ->
          In k ["id"; "startedAt"; "finishedAt"; "title"; "content"; "state"])
    /\ List.concat (List.map onResolved (onFiled toNumber s record operation))
       = [getIterations
            (<["projectID" := toNumber (projectId s)]>
               (<["state" := iterationStateOf (status s)]>
                  (<["pageNo" := VNum 1]> ∅)))].
Proof.
  unfold onFiled. rewrite getList_page1. eexists. split; [reflexivity|].
  repeat split; try reflexivity.
  intros k [x Hx].
  repeat match type of Hx with
         | <[?key := _]> _ !! _ = _ =>
             destruct (decide (k = key)) as [->|?];
             [simpl; tauto | rewrite lookup_insert_ne in Hx by done]
         end.
  rewrite lookup_empty in Hx. discriminate.
Qed.

(** C7: the row actions of a record depend on whether its state is
    ['FILED'] and on nothing else of the record.  A filed record has one
    action, "Unarchive", under the handle-filed permission, which
    unarchives it.  Any other record has three: "Edit", under the
    operation permission, which opens the dialog on the record;
    "Archive", under the handle-filed permission, which archives it; and
    "Delete", under the operation permission, whose click only opens a
    confirmation and deletes the record by its id, and then fetches page 1
    again, once the confirmation is given. *)
Theorem row_actions (operationAuth handleFiledAuth : bool) (s : Page) (record : Detail) :
  (state record = VStr "FILED" ->
   actions_render t toNumber operationAuth handleFiledAuth s record
   = [mkAction (mkWithAuth handleFiledAuth (t "dop:Unarchive"))
        (s, onFiled toNumber s record "UNFILED")])
  /\ (state record <> VStr "FILED" ->
      exists delete,
        actions_render t toNumber operationAuth handleFiledAuth s record
        = [mkAction (mkWithAuth operationAuth (t "Edit")) (onEdit s record, []);
           mkAction (mkWithAuth handleFiledAuth (t "Archive"))
             (s, onFiled toNumber s record "FILED");
           delete]
        /\ actionTitle delete = mkWithAuth operationAuth (t "Delete")
        /\ fst (onClick delete) = s
        /\ existsb isDelete (snd (onClick delete)) = false
        /\ List.concat (List.map onResolved (snd (onClick delete))) = []
        /\ List.concat (List.map onConfirmed (snd (onClick delete)))
           = [deleteIteration (id record)
                [getIterations
                   (<["projectID" := toNumber (projectId s)]>
                      (<["state" := iterationStateOf (status s)]>
                         (<["pageNo" := VNum 1]> ∅)))]])
  /\ (forall record',
        strictEq (state record') (VStr "FILED") = strictEq (state record) (VStr "FILED") ->
        List.map (fun a => text (actionTitle a))
          (actions_render t toNumber operationAuth handleFiledAuth s record')
        = List.map (fun a => text (actionTitle a))
            (actions_render t toNumber operationAuth handleFiledAuth s record)).
Proof.
  repeat apply conj.
  - intros Hst. unfold actions_render. rewrite Hst. done.
  - intros Hst. unfold actions_render.
    assert (strictEq (state record) (VStr "FILED") = false) as ->.
    { destruct (state record) as [| |x| | |]; try done. simpl.
      destruct (String.eqb_spec x "FILED") as [->|]; [done | done]. }
    eexists. split; [reflexivity|]. simpl. unfold onDelete.
    rewrite getList_page1. done.
  - intros record' Heq. unfold actions_render. rewrite Heq.
    destruct (strictEq (state record) (VStr "FILED")); done.
Qed.

End IterationFacts.

Section IterationExamples.

Import IterationPage.

(** The theorem at the page of project 7, on a click on the "Archived"
    tab: one fetch of the filed iterations of project 7, page 1. *)
Lemma tab_selection_fetch_witness :
  snd (onTabChange Samples.decimalNumber "archived" Samples.page7)
  = [getIterations
       (<["projectID" := VNum 7]>
          (<["state" := VStr "FILED"]> (<["pageNo" := VNum 1]> ∅)))].
Proof.
  exact (f_equal snd
           (proj1 (tab_selection_fetch Samples.keyText Samples.decimalNumber
                     Samples.page7 "archived"
                     (or_intror (or_introl eq_refl))
                     ltac:(discriminate)))).
Defined.

(** Selecting the tab that is already shown fetches nothing. *)
Example same_tab_no_fetch :
  onTabChange Samples.decimalNumber "unarchive" Samples.page7 = (Samples.page7, []).
Proof. reflexivity. Qed.

(** The actions of a filed and of an unfiled record. *)
Example row_actions_samples :
  List.map (fun a => (pass (actionTitle a), text (actionTitle a)))
    (actions_render Samples.keyText Samples.decimalNumber true false
       Samples.page7 Samples.sprint0)
  = [(false, "dop:Unarchive")]
  /\ List.map (fun a => (pass (actionTitle a), text (actionTitle a)))
       (actions_render Samples.keyText Samples.decimalNumber true false
          Samples.page7 Samples.sprint1)
     = [(true, "Edit"); (false, "Archive"); (true, "Delete")].
Proof. split; reflexivity. Qed.

End IterationExamples.

(** ** The progress column *)

Section ProgressFacts.

Import ProgressColumn.

Lemma magnitude_pos (m : positive) (e p q : Z) :
  Double.magnitude m e = (p, q) -> (0 < p)%Z /\ (0 < q)%Z.
Proof.
  unfold Double.magnitude. destruct (Z.leb_spec 0 e) as [He | He]; intros Heq;
    injection Heq as <- <-.
  - split; [|lia]. apply Z.mul_pos_pos; [lia | apply Z.pow_pos_nonneg; lia].
  - split; [lia | apply Z.pow_pos_nonneg; lia].
Qed.

(** [baseSum] adds up, from the left, the values that are there. *)
Lemma baseSum_fold (values : list (option spec_float)) (result : option spec_float) :
  fold_left
    (fun result current =>
       match current with
       | Some c => Some (match result with
                         | Some r => Double.add r c
                         | None => c
                         end)
       | None => result
       end)
    values result
  = match result, omap id values with
    | Some r, present => Some (fold_left Double.add present r)
    | None, [] => None
    | None, x :: present => Some (fold_left Double.add present x)
    end.
Proof.
  revert result. induction values as [|[c|] values IH]; intros result; simpl.
  - by destruct result.
  - rewrite IH. by destruct result.
  - apply IH.
Qed.

Lemma orZero_sumBy {A : Type} (f : A -> option spec_float) (l : list A) :
  orZero (sumBy (List.map f l))
  = match omap f l with
    | [] => S754_zero false
    | x :: xs =>
        if Double.toBoolean (fold_left Double.add xs x) then fold_left Double.add xs x
        else S754_zero false
    end.
Proof.
  assert (omap id (List.map f l) = omap f l) as Hom.
  { induction l as [|a l IH]; simpl; [done|].
    destruct (f a); [f_equal|]; exact IH. }
  rewrite <- Hom. unfold sumBy. destruct (List.map f l) as [|v values]; [done|].
  unfold baseSum. rewrite baseSum_fold. by destruct (omap id (v :: values)).
Qed.

(** With a total that is zero nothing is divided and the column shows 0. *)
Lemma percent_no_total (issueSummary : option (list IssueCount)) :
  Double.toBoolean (totalCount issueSummary) = false ->
  percent issueSummary = Double.FixedTenths false 0
  /\ progressPercent issueSummary = S754_zero false.
Proof.
  intros Ht. unfold progressPercent, percent, scaled. rewrite Ht. split; reflexivity.
Qed.

(** C6, as the code has it: the percentage is computed in doubles.  The
    done sum adds up the done counts that are there, from the first on,
    and the total adds the sum of the undone counts and the done sum; a sum
    of no count, of zero or that is [NaN] counts as 0.  When the total is
    zero (as it is when both sums are), nothing is divided and the
    percentage is 0.  Otherwise the done sum is divided by the total
    and the quotient multiplied by 100, each of the two rounded to a
    double, and the percentage is that double rounded to one decimal
    place: the number of tenths nearest to it, the greater one of two that
    are equally near.  The column is handed the double nearest to that
    decimal.  (A product that is [NaN], infinite or 10^21 and more is handed
    on as it is.)  This need not be the exact quotient rounded to one
    decimal place: the rounding of the division and of the product can
    move a value off a half-way point. *)
Theorem progress_percent (issueSummary : option (list IssueCount)) :
  doneTotal issueSummary
  = match omap done (default [] issueSummary) with
    | [] => S754_zero false
    | d :: ds =>
        if Double.toBoolean (fold_left Double.add ds d) then fold_left Double.add ds d
        else S754_zero false
    end
  /\ totalCount issueSummary
     = Double.add
         match omap undone (default [] issueSummary) with
         | [] => S754_zero false
         | u :: us =>
             if Double.toBoolean (fold_left Double.add us u) then fold_left Double.add us u
             else S754_zero false
         end
         (doneTotal issueSummary)
  /\ (Double.toBoolean (totalCount issueSummary) = false ->
   percent issueSummary = Double.FixedTenths false 0
   /\ progressPercent issueSummary = S754_zero false)
  /\ (doneTotal issueSummary = S754_zero false ->
      orZero (sumBy (List.map undone (entries issueSummary))) = S754_zero false ->
      Double.toBoolean (totalCount issueSummary) = false
      /\ percent issueSummary = Double.FixedTenths false 0
      /\ progressPercent issueSummary = S754_zero false)
  /\ (Double.toBoolean (totalCount issueSummary) = true ->
      scaled issueSummary
      = Double.mul (Double.div (doneTotal issueSummary) (totalCount issueSummary))
          (Double.ofZ 100))
  /\ (forall s, scaled issueSummary = S754_zero s ->
        percent issueSummary = Double.FixedTenths false 0
        /\ progressPercent issueSummary = S754_zero false)
  /\ (forall s m e p q,
        scaled issueSummary = S754_finite s m e ->
        Double.magnitude m e = (p, q) ->
        (p < 10 ^ 21 * q)%Z ->
        exists n,
          percent issueSummary = Double.FixedTenths s n
          /\ (0 <= n)%Z
          /\ (2 * q * n <= 20 * p + q < 2 * q * (n + 1))%Z
          /\ progressPercent issueSummary
             = match n with
               | Z.pos k => Double.div (S754_finite s k 0) (Double.ofZ 10)
               | _ => S754_zero s
               end)
  /\ ((scaled issueSummary = S754_nan
       \/ (exists s, scaled issueSummary = S754_infinity s)
       \/ (exists s m e p q,
             scaled issueSummary = S754_finite s m e
             /\ Double.magnitude m e = (p, q) /\ (10 ^ 21 * q <= p)%Z)) ->
      percent issueSummary = Double.FixedToString (scaled issueSummary)
      /\ progressPercent issueSummary = scaled issueSummary).
Proof.
  repeat apply conj.
  - unfold doneTotal, entries. apply orZero_sumBy.
  - unfold totalCount, entries. by rewrite orZero_sumBy.
  - apply percent_no_total.
  - intros Hd Hu.
    assert (Double.toBoolean (totalCount issueSummary) = false) as Ht
      by (unfold totalCount; by rewrite Hd, Hu).
    split; [exact Ht | by apply percent_no_total].
  - intros Ht. unfold scaled. by rewrite Ht.
  - intros s Hs. unfold progressPercent, percent. rewrite Hs. done.
  - intros s m e p q Hs Hm Hlt.
    destruct (magnitude_pos m e p q Hm) as [Hp Hq].
    exists ((20 * p + q) / (2 * q))%Z.
    assert (percent issueSummary = Double.FixedTenths s ((20 * p + q) / (2 * q))) as Hpc.
    { unfold percent. rewrite Hs. unfold Double.toFixed1. rewrite Hm.
      destruct (Z.leb_spec (10 ^ 21 * q) p) as [Hge | _]; [lia | done]. }
    split; [exact Hpc|]. split; [apply Z.div_pos; lia|]. split.
    + pose proof (Z.mul_div_le (20 * p + q) (2 * q) ltac:(lia)) as Hlow.
      pose proof (Z.mul_succ_div_gt (20 * p + q) (2 * q) ltac:(lia)) as Hhigh.
      split; [lia | unfold Z.succ in Hhigh; lia].
    + unfold progressPercent. rewrite Hpc. unfold Double.unaryPlus.
      by destruct ((20 * p + q) / (2 * q))%Z.
  - unfold progressPercent, percent.
    intros [Hs | [[s Hs] | (s & m & e & p & q & Hs & Hm & Hge)]]; rewrite Hs;
      [done | done |].
    unfold Double.toFixed1. rewrite Hm.
    destruct (Z.leb_spec (10 ^ 21 * q) p) as [_ | Hlt]; [done | lia].
Qed.

End ProgressFacts.

Section ProgressExamples.

Import ProgressColumn.

(** C6 as stated fails at 23 issues done of 80: the exact percentage is
    28.75, which rounds to 28.8, and the column shows 28.7, the double the
    code computes being 28.749999999999996. *)
Lemma progress_rounding_counterexample :
  doneTotal (oneCategory 23 57) = Double.ofZ 23
  /\ totalCount (oneCategory 23 57) = Double.ofZ 80
  /\ (1000 * 23 = 287 * 80 + 40)%Z
  /\ exactTenths 23 57 = 288%Z
  /\ scaled (oneCategory 23 57) = S754_finite false 8092405580431359 (-48)
  /\ percent (oneCategory 23 57) = Double.FixedTenths false 287
  /\ progressPercent (oneCategory 23 57)
     = Double.div (Double.ofZ 287) (Double.ofZ 10).
Proof. repeat split; vm_compute; reflexivity. Qed.

(** No summary, an empty one, and one whose counts are all zero or absent
    show 0; 1 done of 3 shows 33.3, and 2 of 3 shows 66.7; the counts of
    several categories are added up. *)
Example progress_samples :
  percent None = Double.FixedTenths false 0
  /\ percent (Some []) = Double.FixedTenths false 0
  /\ percent (Some [mkIssueCount (Some (Double.ofZ 0)) None; mkIssueCount None None])
     = Double.FixedTenths false 0
  /\ percent (oneCategory 1 2) = Double.FixedTenths false 333
  /\ percent (oneCategory 2 1) = Double.FixedTenths false 667
  /\ percent (Some [mkIssueCount (Some (Double.ofZ 1)) (Some (Double.ofZ 2));
                    mkIssueCount (Some (Double.ofZ 3)) (Some (Double.ofZ 2))])
     = Double.FixedTenths false 500
  /\ progressPercent (oneCategory 4 4) = Double.ofZ 50.
Proof. repeat split; vm_compute; reflexivity. Qed.

(** For one category with up to 100 issues done and up to 100 not done,
    the column shows the exact percentage rounded to one decimal place,
    except at (23, 57), (41, 39), (51, 29) and (82, 78), where it shows one
    tenth less. *)
Lemma progress_small_counts (doneCount undoneCount : nat) :
  doneCount <= 100 -> undoneCount <= 100 ->
  percent (oneCategory (Z.of_nat doneCount) (Z.of_nat undoneCount))
  = Double.FixedTenths false
      (if existsb (fun du => Nat.eqb (fst du) doneCount && Nat.eqb (snd du) undoneCount)
            [(23, 57); (41, 39); (51, 29); (82, 78)]
       then Z.pred (exactTenths (Z.of_nat doneCount) (Z.of_nat undoneCount))
       else exactTenths (Z.of_nat doneCount) (Z.of_nat undoneCount)).
Proof.
  intros Hd Hu.
  assert (forallb
            (fun d =>
               forallb
                 (fun u =>
                    match percent (oneCategory (Z.of_nat d) (Z.of_nat u)) with
                    | Double.FixedTenths false n =>
                        Z.eqb n
                          (if existsb (fun du => Nat.eqb (fst du) d && Nat.eqb (snd du) u)
                                [(23, 57); (41, 39); (51, 29); (82, 78)]
                           then Z.pred (exactTenths (Z.of_nat d) (Z.of_nat u))
                           else exactTenths (Z.of_nat d) (Z.of_nat u))
                    | _ => false
                    end)
                 (seq 0 101))
            (seq 0 101) = true) as Hall by (vm_compute; reflexivity).
  rewrite forallb_forall in Hall.
  specialize (Hall doneCount ltac:(apply in_seq; lia)).
  rewrite forallb_forall in Hall.
  specialize (Hall undoneCount ltac:(apply in_seq; lia)).
  destruct (percent (oneCategory (Z.of_nat doneCount) (Z.of_nat undoneCount)))
    as [[|] n | x]; try discriminate.
  apply Z.eqb_eq in Hall. by rewrite Hall.
Qed.

End ProgressExamples.

(** * Further properties *)

(** ** Option search, again *)

Section SearchMoreFacts.

Import ContractiveFilter.

Variable toLowerCase : string -> string.

Lemma filter_filter_same {A : Type} (p : A -> bool) (l : list A) :
  List.filter p (List.filter p l) = List.filter p l.
Proof.
  induction l as [|x l IH]; simpl; [done|].
  destruct (p x) eqn:E; simpl; [by rewrite E, IH | done].
Qed.

Lemma existsb_filter_same {A : Type} (p : A -> bool) (l : list A) :
  existsb p (List.filter p l) = existsb p l.
Proof.
  induction l as [|x l IH]; simpl; [done|].
  destruct (p x) eqn:E; simpl; [by rewrite E | done].
Qed.

Lemma narrowOption_kept (f : string) (o : Option) :
  keepOption toLowerCase f o = true ->
  keepOption toLowerCase f (narrowOption toLowerCase f o) = true
  /\ narrowOption toLowerCase f (narrowOption toLowerCase f o)
     = narrowOption toLowerCase f o.
Proof.
  unfold keepOption, narrowOption. destruct (children o) as [cs|] eqn:Hc; simpl.
  - intros Hk. rewrite existsb_filter_same, filter_filter_same. done.
  - rewrite Hc. done.
Qed.

Lemma selectOptionsSpec_idempotent (f : string) (options : list Option) :
  selectOptionsSpec toLowerCase f (selectOptionsSpec toLowerCase f options)
  = selectOptionsSpec toLowerCase f options.
Proof.
  unfold selectOptionsSpec.
  induction options as [|o options IH]; cbn [List.filter List.map]; [done|].
  destruct (keepOption toLowerCase f o) eqn:Hk; cbn [List.filter List.map]; [|exact IH].
  destruct (narrowOption_kept f o Hk) as [Hk' Hn]. rewrite Hk'.
  cbn [List.map]. by rewrite Hn, IH.
Qed.

Lemma selectOptionsSpec_length (f : string) (options : list Option) :
  length (selectOptionsSpec toLowerCase f options) <= length options.
Proof.
  unfold selectOptionsSpec. rewrite length_map. apply filter_length_le.
Qed.

(** X1: searching the result of a search again for the same text changes
    nothing, and a search never returns more options than it was given. *)
Theorem getSelectOptions_idempotent (options : list Option) (filterKey : option string) :
  getSelectOptions toLowerCase (getSelectOptions toLowerCase options filterKey) filterKey
  = getSelectOptions toLowerCase options filterKey
  /\ length (getSelectOptions toLowerCase options filterKey) <= length options.
Proof.
  destruct filterKey as [f|]; [|done].
  destruct (String.eqb_spec f "") as [->|Hf]; [done|].
  rewrite !(getSelectOptions_nonempty toLowerCase f _ Hf).
  split; [apply selectOptionsSpec_idempotent | apply selectOptionsSpec_length].
Qed.

End SearchMoreFacts.

(** ** Selecting options *)

Section SelectMoreFacts.

Import ContractiveFilter ContractiveFilter.SelectFilterItem.

Lemma strictEq_refl_scalar (x : jsval) :
  isString x || isNumber x = true -> strictEq x x = true.
Proof.
  destruct x; simpl; try discriminate; intros _.
  - apply String.eqb_refl.
  - apply Z.eqb_refl.
Qed.

Lemma arrIncludes_app (vs ws : list jsval) (x : jsval) :
  arrIncludes (vs ++ ws) x = arrIncludes vs x || arrIncludes ws x.
Proof. unfold arrIncludes. apply existsb_app. Qed.

Lemma filter_out_absent (vs : list jsval) (x : jsval) :
  arrIncludes vs x = false ->
  List.filter (fun v => negb (strictEq v x)) vs = vs.
Proof.
  unfold arrIncludes. induction vs as [|v vs IH]; simpl; [done|].
  intros H. apply orb_false_iff in H as [Hv Hvs]. rewrite Hv. simpl. by rewrite IH.
Qed.

(** X2: in multi-select mode a click on an option that is not selected
    raises the change to the selection with the option's value added at
    its end, and a click on it once more raises the change back to the
    selection there was (or, for a required condition with nothing else
    selected, raises nothing). *)
Theorem multi_select_toggle (itemData : ICondition.t) (value : jsval)
    (vs : list jsval) (opt : Option) :
  isSingleMode itemData = false ->
  _value value = Some vs ->
  isString (ContractiveFilter.value opt) || isNumber (ContractiveFilter.value opt) = true ->
  arrIncludes vs (ContractiveFilter.value opt) = false ->
  onClickOptItem itemData value opt
  = Some [ItemChange (ICondition.key itemData)
            (VArr (vs ++ [ContractiveFilter.value opt])) false]
  /\ onClickOptItem itemData (VArr (vs ++ [ContractiveFilter.value opt])) opt
     = Some (if ICondition.required itemData && Nat.eqb (length vs) 0 then []
             else [ItemChange (ICondition.key itemData) (VArr vs) false]).
Proof.
  intros Hm Hv Hs Hnot.
  assert (arrIncludes (vs ++ [ContractiveFilter.value opt]) (ContractiveFilter.value opt)
          = true) as Hin.
  { rewrite arrIncludes_app, Hnot. unfold arrIncludes. simpl.
    by rewrite (strictEq_refl_scalar _ Hs). }
  assert (List.filter (fun v => negb (strictEq v (ContractiveFilter.value opt)))
            (vs ++ [ContractiveFilter.value opt]) = vs) as Hout.
  { rewrite List.filter_app. simpl. rewrite (strictEq_refl_scalar _ Hs). simpl.
    by rewrite app_nil_r, (filter_out_absent vs _ Hnot). }
  split.
  - unfold onClickOptItem. rewrite Hv, Hm, Hnot.
    rewrite length_app, Nat.add_1_r. cbn [length Nat.eqb]. by rewrite andb_false_r.
  - unfold onClickOptItem. cbn [_value truthy isString isNumber orb].
    rewrite Hm, Hin, Hout. done.
Qed.

End SelectMoreFacts.

Section SelectMoreExamples.

Import ContractiveFilter ContractiveFilter.SelectFilterItem.

(** The theorem at the "status" condition with "open" selected and a click
    on "Closed". *)
Lemma multi_select_toggle_witness :
  onClickOptItem Samples.statusCondition (VStr "open") Samples.optClosed
  = Some [ItemChange "status" (VArr [VStr "open"; VStr "closed"]) false]
  /\ onClickOptItem Samples.statusCondition (VArr [VStr "open"; VStr "closed"])
       Samples.optClosed
     = Some [ItemChange "status" (VArr [VStr "open"]) false].
Proof.
  exact (multi_select_toggle Samples.statusCondition (VStr "open") [VStr "open"]
           Samples.optClosed eq_refl eq_refl eq_refl eq_refl).
Defined.

End SelectMoreExamples.

(** ** Option groups *)

Section GroupFacts.

Import ContractiveFilter.

(** X3: a group of a select condition is cut to the condition's
    [firstShowLength], which is 200 when the condition sets none, provided
    this is a positive number: with more children than that, the group
    first shows that many children and a "load more" control, and all of
    them after a click on the control.  A condition that sets no
    [firstShowLength] thus cuts its groups at 200 while its own list of
    options is never cut. *)
Theorem group_truncation (itemData : ICondition.t) (op : Option) (cs : list Option) :
  children op = Some cs ->
  (0 < SelectFilterItem.firstShowLength itemData)%Z ->
  (SelectFilterItem.firstShowLength itemData < Z.of_nat (length cs))%Z ->
  exists n,
    GroupOpt.groupOfNode (SelectFilterItem.renderOption itemData op) = Some (op, Some n)
    /\ n = SelectFilterItem.firstShowLength itemData
    /\ GroupOpt.groupHasMore (GroupOpt.initialGroupState op (Some n)) = true
    /\ GroupOpt.useOption op (Some n) (GroupOpt.initialGroupState op (Some n))
       = Some (firstn (Z.to_nat n) cs)
    /\ GroupOpt.useOption op (Some n)
         (GroupOpt.onGroupLoadMore (GroupOpt.initialGroupState op (Some n)))
       = Some cs
    /\ (ICondition.firstShowLength itemData = None ->
        n = 200%Z /\ SelectFilterItem.initialHasMore itemData = false).
Proof.
  intros Hc Hpos Hlt. exists (SelectFilterItem.firstShowLength itemData).
  assert (GroupOpt.initialGroupHasMore op (Some (SelectFilterItem.firstShowLength itemData))
          = true) as Hmore.
  { unfold GroupOpt.initialGroupHasMore, GroupOpt.childrenLength. rewrite Hc. simpl.
    destruct (SelectFilterItem.firstShowLength itemData =? 0)%Z eqn:E; [lia|].
    simpl. lia. }
  repeat apply conj.
  - unfold SelectFilterItem.renderOption. rewrite Hc.
    destruct cs as [|c cs']; [simpl in Hlt; lia | done].
  - done.
  - exact Hmore.
  - unfold GroupOpt.useOption, GroupOpt.initialGroupState.
    cbn [GroupOpt.groupHasMore]. rewrite Hmore, Hc.
    by rewrite slice0_nonneg by lia.
  - unfold GroupOpt.useOption, GroupOpt.onGroupLoadMore.
    cbn [GroupOpt.groupHasMore]. exact Hc.
  - intros Hnone. unfold SelectFilterItem.firstShowLength, SelectFilterItem.initialHasMore.
    rewrite Hnone. done.
Qed.

(** With [firstShowLength: 0] a group shows all its children and no "load
    more" control. *)
Example group_zero_uncut :
  GroupOpt.groupOfNode (SelectFilterItem.renderOption Samples.firstZero Samples.optStates)
  = Some (Samples.optStates, Some 0%Z)
  /\ GroupOpt.groupHasMore (GroupOpt.initialGroupState Samples.optStates (Some 0%Z)) = false
  /\ GroupOpt.useOption Samples.optStates (Some 0%Z)
       (GroupOpt.initialGroupState Samples.optStates (Some 0%Z))
     = Some [Samples.optOpen; Samples.optClosed; Samples.optReopened].
Proof. repeat split. Qed.

End GroupFacts.

(** ** The order in which conditions are shown *)

Section ShowIndexFacts.

Import ContractiveFilter FilterBarView.

Lemma maxShowIndex_fold_ge (cs : list ICondition.t) (acc : option Z) :
  let r :=
    fold_left
      (fun acc item =>
         match ICondition.showIndex item, acc with
         | Some i, Some m => Some (Z.max m i)
         | Some i, None => Some i
         | None, _ => acc
         end)
      cs acc in
  (forall m, acc = Some m -> exists m', r = Some m' /\ (m <= m')%Z)
  /\ (forall a i, In a cs -> ICondition.showIndex a = Some i ->
        exists m', r = Some m' /\ (i <= m')%Z).
Proof.
  revert acc. induction cs as [|c cs IH]; intros acc; simpl.
  - split; [intros m ->; exists m; split; [done | lia] | intros a i []].
  - destruct (IH (match ICondition.showIndex c, acc with
                  | Some i, Some m => Some (Z.max m i)
                  | Some i, None => Some i
                  | None, _ => acc
                  end)) as [IH1 IH2].
    split.
    + intros m ->. destruct (ICondition.showIndex c) as [i|].
      * destruct (IH1 (Z.max m i) eq_refl) as (m' & Hr & Hle).
        exists m'. split; [done | lia].
      * exact (IH1 m eq_refl).
    + intros a i [<- | Hin] Hi.
      * rewrite Hi in *. destruct acc as [m|].
        -- destruct (IH1 (Z.max m i) eq_refl) as (m' & Hr & Hle).
           exists m'. split; [done | lia].
        -- destruct (IH1 i eq_refl) as (m' & Hr & Hle). eauto.
      * exact (IH2 a i Hin Hi).
Qed.

Lemma maxShowIndex_ge (cs : list ICondition.t) (a : ICondition.t) (i : Z) :
  In a cs -> ICondition.showIndex a = Some i ->
  exists m, maxShowIndex cs = Some m /\ (i <= m)%Z.
Proof. intros Hin Hi. exact (proj2 (maxShowIndex_fold_ge cs None) a i Hin Hi). Qed.

Lemma maxShowIndex_fold_attained (cs : list ICondition.t) (acc : option Z) (m : Z) :
  fold_left
    (fun acc item =>
       match ICondition.showIndex item, acc with
       | Some i, Some m => Some (Z.max m i)
       | Some i, None => Some i
       | None, _ => acc
       end)
    cs acc = Some m ->
  acc = Some m \/ exists a, In a cs /\ ICondition.showIndex a = Some m.
Proof.
  revert acc. induction cs as [|c cs IH]; intros acc; simpl; [by left|].
  intros Hr. apply IH in Hr as [Hacc | (a & Hin & Ha)]; [|right; eauto].
  destruct (ICondition.showIndex c) as [i|] eqn:Hi; [|by left].
  destruct acc as [m0|].
  - injection Hacc as Hmax. destruct (Z.max_spec m0 i) as [[_ Heq] | [_ Heq]].
    + right. exists c. split; [by left | congruence].
    + left. congruence.
  - right. exists c. split; [by left | congruence].
Qed.

Lemma maxShowIndex_attained (cs : list ICondition.t) (m : Z) :
  maxShowIndex cs = Some m -> exists a, In a cs /\ ICondition.showIndex a = Some m.
Proof.
  intros Hm. by destruct (maxShowIndex_fold_attained cs None m Hm) as [? | ?].
Qed.

(** An integer of magnitude up to 2^53 is a double, and no integer but 0
    rounds to 0. *)
Lemma roundToDouble_exact (z : Z) :
  (Z.abs z <= 2 ^ 53)%Z -> roundToDouble z = z.
Proof.
  intros Hz. unfold roundToDouble.
  destruct (Z.leb_spec (Z.abs z) (2 ^ 53)) as [_ | Hgt]; [done | lia].
Qed.

Lemma roundToDouble_nonzero (z : Z) :
  z <> 0%Z -> roundToDouble z <> 0%Z.
Proof.
  intros Hz. unfold roundToDouble.
  destruct (Z.leb_spec (Z.abs z) (2 ^ 53)) as [_ | Hgt]; [done|].
  assert (53 <= Z.log2 (Z.abs z))%Z as Hlog.
  { rewrite <- (Z.log2_pow2 53) by lia. apply Z.log2_le_mono. lia. }
  assert (0 < 2 ^ (Z.log2 (Z.abs z) - 52))%Z as Hulp by (apply Z.pow_pos_nonneg; lia).
  assert (2 ^ (Z.log2 (Z.abs z) - 52) <= Z.abs z)%Z as Hle.
  { transitivity (2 ^ Z.log2 (Z.abs z))%Z.
    - apply Z.pow_le_mono_r; lia.
    - apply Z.log2_spec. lia. }
  assert (0 < Z.abs z / 2 ^ (Z.log2 (Z.abs z) - 52))%Z as Hq
    by (apply Z.div_str_pos; lia).
  intros H0.
  apply Z.mul_eq_0 in H0 as [H0 | H0]; [destruct z; simpl in H0; lia|].
  apply Z.mul_eq_0 in H0 as [H0 | H0]; [|lia].
  destruct (_ || _) in H0; lia.
Qed.

Lemma nextShowIndex_safe (m : option Z) :
  (forall x, m = Some x -> (Z.abs x <= MAX_SAFE_INTEGER)%Z) ->
  nextShowIndex m
  = ((match m with
      | Some x => x
      | None => 0
      end) + 1)%Z.
Proof.
  intros Hm. unfold nextShowIndex, plus1.
  destruct m as [x|]; [|done].
  specialize (Hm x eq_refl). unfold MAX_SAFE_INTEGER in Hm. simpl.
  destruct (Z.eqb_spec x 0) as [->|Hx]; simpl; [done|].
  apply roundToDouble_exact. change (2 ^ 53)%Z with 9007199254740992%Z. lia.
Qed.

Lemma sameButShowIndex_withShowIndex (a : ICondition.t) (i : option Z) :
  sameButShowIndex a (withShowIndex a i).
Proof. done. Qed.

Lemma sameButShowIndex_refl (a : ICondition.t) : sameButShowIndex a a.
Proof. by destruct a. Qed.

Lemma Forall2_map_same {A : Type} (R : A -> A -> Prop) (f : A -> A) (l : list A) :
  (forall a, R a (f a)) -> Forall2 R l (List.map f l).
Proof. intros H. induction l; simpl; constructor; auto. Qed.

Lemma setConditionShowIndex_frame (cs : list ICondition.t) (key : string) (show : bool) :
  Forall2 sameButShowIndex cs (setConditionShowIndex cs key show).
Proof.
  unfold setConditionShowIndex. apply Forall2_map_same.
  intros a. apply sameButShowIndex_withShowIndex.
Qed.

(** X4: [setConditionShowIndex] keeps the length and the order of the list
    and changes nothing but [showIndex], and only of the conditions with
    the given key.  Hiding gives them 0.  Showing gives them
    [(max || 0) + 1], [max] being the greatest [showIndex] of the list:
    when every [showIndex] of the list is a safe integer (of magnitude at
    most 2^53 - 1) this is above every [showIndex] of the list, their own
    former one included, so that they sort after the others.  The sum is a
    sum of doubles: with a greatest [showIndex] of 2^53 it is 2^53 again,
    and not above. *)
Theorem setConditionShowIndex_on_top (cs : list ICondition.t) (key : string)
    (show : bool) :
  Forall2 sameButShowIndex cs (setConditionShowIndex cs key show)
  /\ (forall a', In a' (setConditionShowIndex cs key show) ->
        ICondition.key a' <> key -> In a' cs)
  /\ (forall a', In a' (setConditionShowIndex cs key show) ->
        ICondition.key a' = key ->
        if show
        then ICondition.showIndex a' = Some (nextShowIndex (maxShowIndex cs))
             /\ ((forall a i, In a cs -> ICondition.showIndex a = Some i ->
                              (Z.abs i <= MAX_SAFE_INTEGER)%Z) ->
                 forall a i, In a cs -> ICondition.showIndex a = Some i ->
                             (i < nextShowIndex (maxShowIndex cs))%Z)
        else ICondition.showIndex a' = Some 0%Z)
  /\ nextShowIndex (Some (2 ^ 53)%Z) = (2 ^ 53)%Z.
Proof.
  repeat apply conj.
  - apply setConditionShowIndex_frame.
  - unfold setConditionShowIndex.
    intros a' Hin Hk. apply in_map_iff in Hin as (a & <- & Hin). simpl in Hk.
    destruct (String.eqb_spec key (ICondition.key a)) as [->|_]; [done|].
    destruct a. exact Hin.
  - unfold setConditionShowIndex.
    intros a' Hin Hk. apply in_map_iff in Hin as (a0 & <- & Hin0). simpl in *.
    rewrite Hk, String.eqb_refl. destruct show; [|done].
    split; [done|]. intros Hsafe a i Hin Hi.
    destruct (maxShowIndex_ge cs a i Hin Hi) as (m & Hm & Hle).
    rewrite nextShowIndex_safe.
    + rewrite Hm. lia.
    + intros x Hx. apply maxShowIndex_attained in Hx as (ax & Hax & Hix). eauto.
  - reflexivity.
Qed.

(** [roundToDouble] and [plus1] against the standard library's binary64:
    at every integer from 2^53 - 8 to 2^53 + 63 and from 2^54 - 24 to
    2^54 + 47, and at some beyond, the integer kept is the one the
    conversion to a double, respectively the sum of doubles, holds. *)
Example roundToDouble_samples :
  List.map roundToDouble
    (List.map (fun i => 2 ^ 53 - 8 + Z.of_nat i) (seq 0 72)
     ++ List.map (fun i => - (2 ^ 53 - 8 + Z.of_nat i)) (seq 0 72)
     ++ List.map (fun i => 2 ^ 54 - 24 + Z.of_nat i) (seq 0 72)
     ++ [2 ^ 55 - 1; 2 ^ 55 - 2; 2 ^ 55 - 3; 2 ^ 60 + 129; 2 ^ 100 + 2 ^ 47;
         2 ^ 100 + 2 ^ 47 + 1; 2 ^ 100 + 3 * 2 ^ 47; 2 ^ 1023 + 1;
         123456789012345678901234567890; -987654321098765432109876543210])%Z
  = List.map (fun z => Double.toZ (Double.ofZ z))
      (List.map (fun i => 2 ^ 53 - 8 + Z.of_nat i) (seq 0 72)
       ++ List.map (fun i => - (2 ^ 53 - 8 + Z.of_nat i)) (seq 0 72)
       ++ List.map (fun i => 2 ^ 54 - 24 + Z.of_nat i) (seq 0 72)
       ++ [2 ^ 55 - 1; 2 ^ 55 - 2; 2 ^ 55 - 3; 2 ^ 60 + 129; 2 ^ 100 + 2 ^ 47;
           2 ^ 100 + 2 ^ 47 + 1; 2 ^ 100 + 3 * 2 ^ 47; 2 ^ 1023 + 1;
           123456789012345678901234567890; -987654321098765432109876543210])%Z
  /\ List.map plus1
       [0; 41; -1; -2; 2 ^ 53 - 1; 2 ^ 53; 2 ^ 53 + 2; 2 ^ 53 + 4; 2 ^ 54;
        - 2 ^ 53; - 2 ^ 53 - 2; - 2 ^ 54; 2 ^ 60]%Z
     = List.map (fun x => Double.toZ (Double.add (Double.ofZ x) (Double.ofZ 1)))
         [0; 41; -1; -2; 2 ^ 53 - 1; 2 ^ 53; 2 ^ 53 + 2; 2 ^ 53 + 4; 2 ^ 54;
          - 2 ^ 53; - 2 ^ 53 - 2; - 2 ^ 54; 2 ^ 60]%Z
  /\ plus1 (2 ^ 53) = (2 ^ 53)%Z
  /\ plus1 (2 ^ 53 + 2) = (2 ^ 53 + 4)%Z.
Proof. repeat split; vm_compute; reflexivity. Qed.

End ShowIndexFacts.

Section ShowIndexExamples.

Import ContractiveFilter FilterBarView.

(** The theorem at the sample bar, whose conditions have the [showIndex] 1
    and 2: the hidden "owner" condition is shown with a [showIndex] of 3,
    above the 2 of "status". *)
Lemma setConditionShowIndex_on_top_witness :
  ICondition.showIndex
    (withShowIndex MoreSamples.hiddenCondition
       (Some (nextShowIndex (maxShowIndex (conditions MoreSamples.viewBar)))))
  = Some 3%Z
  /\ (2 < nextShowIndex (maxShowIndex (conditions MoreSamples.viewBar)))%Z.
Proof.
  pose proof (proj1 (proj2 (proj2
                (setConditionShowIndex_on_top (conditions MoreSamples.viewBar) "owner" true)))
                (withShowIndex MoreSamples.hiddenCondition
                   (Some (nextShowIndex (maxShowIndex (conditions MoreSamples.viewBar)))))
                ltac:(simpl; tauto) eq_refl) as [Hnew Habove].
  split; [exact Hnew|].
  apply (Habove
           ltac:(intros a i [<- | [<- | [<- | [<- | []]]]] Hi; simpl in Hi;
                 try discriminate; injection Hi as <-; unfold MAX_SAFE_INTEGER; lia)
           MoreSamples.shownCondition 2%Z ltac:(simpl; tauto) eq_refl).
Defined.

End ShowIndexExamples.

Section GroupExamples.

Import ContractiveFilter.

(** The theorem at a condition that sets no [firstShowLength] and a group
    of 201 options. *)
Lemma group_truncation_witness :
  exists n,
    GroupOpt.groupOfNode
      (SelectFilterItem.renderOption Samples.statusCondition MoreSamples.optMany)
    = Some (MoreSamples.optMany, Some n)
    /\ n = SelectFilterItem.firstShowLength Samples.statusCondition
    /\ GroupOpt.groupHasMore (GroupOpt.initialGroupState MoreSamples.optMany (Some n)) = true
    /\ GroupOpt.useOption MoreSamples.optMany (Some n)
         (GroupOpt.initialGroupState MoreSamples.optMany (Some n))
       = Some (firstn (Z.to_nat n) (repeat Samples.optOpen 201))
    /\ GroupOpt.useOption MoreSamples.optMany (Some n)
         (GroupOpt.onGroupLoadMore (GroupOpt.initialGroupState MoreSamples.optMany (Some n)))
       = Some (repeat Samples.optOpen 201)
    /\ (ICondition.firstShowLength Samples.statusCondition = None ->
        n = 200%Z /\ SelectFilterItem.initialHasMore Samples.statusCondition = false).
Proof.
  exact (group_truncation Samples.statusCondition MoreSamples.optMany
           (repeat Samples.optOpen 201) eq_refl eq_refl eq_refl).
Defined.

End GroupExamples.

(** ** The conditions shown at first *)

Section InitConditionsFacts.

Import ContractiveFilter FilterBarView.

Lemma getInitConditions_loop (valueMap : gmap string jsval) (cs : list PropCondition)
    (curMax : option jsnum) (acc : list InitCondition) :
  snd
    (fold_left
       (fun st item =>
          if defaultShown valueMap item
          then (Some (plusOne (fst st)),
                snd st ++ [mkInitCondition item (Some (plusOne (fst st)))])
          else (fst st, snd st ++ [mkInitCondition item None]))
       cs (curMax, acc))
  = acc ++ initFrom valueMap curMax cs.
Proof.
  revert curMax acc. induction cs as [|c cs IH]; intros curMax acc; simpl.
  - by rewrite app_nil_r.
  - destruct (defaultShown valueMap c); simpl; rewrite IH, <- app_assoc; done.
Qed.

Lemma initFrom_source (valueMap : gmap string jsval) (cs : list PropCondition)
    (curMax : option jsnum) :
  List.map source (initFrom valueMap curMax cs) = cs.
Proof.
  revert curMax. induction cs as [|c cs IH]; intros curMax; simpl; [done|].
  destruct (defaultShown valueMap c); simpl; by rewrite IH.
Qed.

Lemma initFrom_given (valueMap : gmap string jsval) (cs : list PropCondition)
    (curMax : option jsnum) (ic : InitCondition) :
  In ic (initFrom valueMap curMax cs) ->
  (given ic = None <-> defaultShown valueMap (source ic) = false).
Proof.
  revert curMax. induction cs as [|c cs IH]; intros curMax; simpl; [done|].
  destruct (defaultShown valueMap c) eqn:E; simpl.
  - intros [<- | Hin]; [simpl; rewrite E; done | eauto].
  - intros [<- | Hin]; [simpl; rewrite E; done | eauto].
Qed.

Lemma initFrom_counts (valueMap : gmap string jsval) (cs : list PropCondition) (m : Z) :
  (- 2 ^ 53 - 1 <= m)%Z ->
  (m + Z.of_nat (length (List.filter (defaultShown valueMap) cs)) <= 2 ^ 53)%Z ->
  omap given (initFrom valueMap (Some (Fin m)) cs)
  = List.map (fun i => Fin (m + Z.of_nat i))
      (seq 1 (length (List.filter (defaultShown valueMap) cs))).
Proof.
  revert m. induction cs as [|c cs IH]; intros m Hlo Hhi; simpl; [done|].
  simpl in Hhi. destruct (defaultShown valueMap c); simpl in *.
  - assert (plus1 m = (m + 1)%Z) as -> by (apply roundToDouble_exact; lia).
    rewrite IH by lia. rewrite <- (seq_shift _ 1), List.map_map.
    apply (f_equal2 cons); [f_equal; lia|].
    apply map_ext. intros i. f_equal. lia.
  - by apply IH.
Qed.

Lemma initFrom_nan (valueMap : gmap string jsval) (cs : list PropCondition)
    (curMax : option jsnum) (ic : InitCondition) :
  curMax = None \/ curMax = Some NaN ->
  In ic (initFrom valueMap curMax cs) ->
  given ic = None \/ given ic = Some NaN.
Proof.
  revert curMax. induction cs as [|c cs IH]; intros curMax Hcur; simpl; [done|].
  assert (plusOne curMax = NaN) as Hp by (destruct Hcur as [-> | ->]; done).
  destruct (defaultShown valueMap c); simpl.
  - rewrite Hp. intros [<- | Hin]; [by right|]. apply (IH (Some NaN)); auto.
  - intros [<- | Hin]; [by left|]. eauto.
Qed.

Lemma defaultShown_spec (valueMap : gmap string jsval) (item : PropCondition) :
  defaultShown valueMap item = true <->
  (hasShowIndex item = false
   /\ getProp valueMap (ICondition.key (condition item)) <> VUndef)
  \/ (exists v l, getProp valueMap (ICondition.key (condition item)) = VArr (v :: l)).
Proof.
  unfold defaultShown.
  destruct (getProp valueMap (ICondition.key (condition item))) as [| | | |[|v l]|] eqn:E,
           (hasShowIndex item); simpl; split; intros H; try done;
    try (by left); try (by right; eauto);
    destruct H as [[? ?] | (? & ? & ?)]; done.
Qed.

(** X5: [getInitConditions] returns the conditions in their order, each as
    it was or with a new [showIndex].  A condition gets a new one exactly
    when it has a value and no [showIndex] key (a key bound to [undefined]
    counts as a key), or a non-empty list as value.  If [m] is the greatest
    [showIndex] of the conditions given, the new ones are [m + 1], [m + 2],
    and so on down the list, as long as the count stays from -2^53 to 2^53,
    where a double holds every integer; at 2^53 the count stops.  If no
    condition has a [showIndex], every new one is [NaN]. *)
Theorem getInitConditions_counts (cs : list PropCondition)
    (valueMap : gmap string jsval) :
  List.map source (getInitConditions cs valueMap) = cs
  /\ (forall ic, In ic (getInitConditions cs valueMap) ->
        (given ic = None <->
         ~ ((ICondition.showIndex (condition (source ic)) = None
             /\ showIndexKey (source ic) = false
             /\ getProp valueMap (ICondition.key (condition (source ic))) <> VUndef)
            \/ (exists v l,
                  getProp valueMap (ICondition.key (condition (source ic)))
                  = VArr (v :: l)))))
  /\ (forall m, maxShowIndex (List.map condition cs) = Some m ->
        (- 2 ^ 53 <= m)%Z ->
        (m + Z.of_nat (length (List.filter (defaultShown valueMap) cs)) <= 2 ^ 53)%Z ->
        omap given (getInitConditions cs valueMap)
        = List.map (fun i => Fin (m + Z.of_nat i))
            (seq 1 (length (List.filter (defaultShown valueMap) cs))))
  /\ plusOne (Some (Fin (2 ^ 53))) = Fin (2 ^ 53)
  /\ (maxShowIndex (List.map condition cs) = None ->
        forall ic, In ic (getInitConditions cs valueMap) ->
                   given ic = None \/ given ic = Some NaN).
Proof.
  unfold getInitConditions. rewrite getInitConditions_loop. simpl.
  repeat apply conj.
  - apply initFrom_source.
  - intros ic Hin. rewrite (initFrom_given _ _ _ _ Hin).
    assert (hasShowIndex (source ic) = false
            <-> ICondition.showIndex (condition (source ic)) = None
                /\ showIndexKey (source ic) = false) as Hhas.
    { unfold hasShowIndex. destruct (ICondition.showIndex (condition (source ic)));
        split; intros H; try done; by destruct H. }
    pose proof (defaultShown_spec valueMap (source ic)) as Hspec.
    destruct (defaultShown valueMap (source ic)); split; intros H; try done.
    + exfalso. apply H. destruct (proj1 Hspec eq_refl) as [[Hno Hv] | Harr].
      * left. apply Hhas in Hno. tauto.
      * by right.
    + intros Hyes. assert (false = true) as Habs; [|discriminate].
      apply Hspec. tauto.
  - intros m -> Hlo Hhi. apply initFrom_counts; [lia | done].
  - reflexivity.
  - intros -> ic. apply initFrom_nan. by left.
Qed.

End InitConditionsFacts.

Section InitConditionsWitness.

Import ContractiveFilter FilterBarView.

(** The theorem at the conditions of the sample bar, none of which has a
    [showIndex] key bound to [undefined]: the greatest [showIndex] is 2,
    and the one condition that holds a value is given 3. *)
Lemma getInitConditions_counts_witness :
  omap given
    (getInitConditions
       (List.map (fun c => mkPropCondition c false) (conditions MoreSamples.viewBar))
       (valueMap MoreSamples.viewBar))
  = [Fin 3].
Proof.
  exact (proj1 (proj2 (proj2
           (getInitConditions_counts
              (List.map (fun c => mkPropCondition c false) (conditions MoreSamples.viewBar))
              (valueMap MoreSamples.viewBar))))
           2%Z eq_refl ltac:(lia) ltac:(vm_compute; discriminate)).
Defined.

End InitConditionsWitness.

Section InitConditionsExamples.

Import ContractiveFilter FilterBarView.

(** On the sample bar the greatest [showIndex] is 2, and "status", which
    holds a non-empty list, is given 3.  A lone condition without a
    [showIndex] key that holds a value is given [NaN]; with the key bound
    to [undefined] and a value that is no list it is given nothing. *)
Example getInitConditions_samples :
  List.map given
    (getInitConditions
       (List.map (fun c => mkPropCondition c false) (conditions MoreSamples.viewBar))
       (valueMap MoreSamples.viewBar))
  = [None; None; Some (Fin 3); None]
  /\ List.map given
       (getInitConditions [mkPropCondition Samples.statusCondition false]
          (valueMap Samples.statusBar))
     = [Some NaN]
  /\ List.map given
       (getInitConditions [mkPropCondition Samples.statusCondition true]
          (<["status" := VStr "open"]> ∅))
     = [None].
Proof. repeat split; reflexivity. Qed.

End InitConditionsExamples.

(** ** What the bar shows *)

Section ShowListFacts.

Import ContractiveFilter FilterBarView.

Lemma insertByShowIndex_perm (x : ICondition.t) (l : list ICondition.t) :
  Permutation (insertByShowIndex x l) (x :: l).
Proof.
  induction l as [|y l IH]; simpl; [done|].
  destruct (showIndexLe _ _); [done|].
  rewrite IH. apply perm_swap.
Qed.

Lemma sortByShowIndex_perm (l : list ICondition.t) :
  Permutation (sortByShowIndex l) l.
Proof.
  induction l as [|x l IH]; simpl; [done|].
  rewrite insertByShowIndex_perm. by constructor.
Qed.

Lemma in_showList (b : Bar) (a : ICondition.t) :
  In a (showList b) <-> In a (conditions b) /\ isShown (valueMap b) a = true.
Proof.
  unfold showList. rewrite <- filter_In. split; apply Permutation_in.
  - apply sortByShowIndex_perm.
  - symmetry. apply sortByShowIndex_perm.
Qed.

Lemma haveShow_true (b : Bar) (key : string) :
  haveShow b key = true <-> exists a, In a (showList b) /\ ICondition.key a = key.
Proof.
  unfold haveShow. rewrite existsb_exists. split.
  - intros (a & Hin & Heq). apply String.eqb_eq in Heq. eauto.
  - intros (a & Hin & Heq). exists a. split; [done|]. by apply String.eqb_eq.
Qed.

(** With no value under its key a condition is shown by its [showIndex]
    and [fixed] alone. *)
Lemma isShown_undefined (valueMap : gmap string jsval) (a : ICondition.t) :
  getProp valueMap (ICondition.key a) = VUndef ->
  isShown valueMap a
  = negb (ICondition.split a)
    && (if isInput a then showIndexTruthy a && fixedIsFalse a
        else showIndexTruthy a || default false (ICondition.fixed a)).
Proof.
  intros Hv. unfold isShown. rewrite Hv. simpl.
  destruct (ICondition.split a), (isInput a); done.
Qed.

Lemma isShown_value (valueMap : gmap string jsval) (a : ICondition.t) :
  ICondition.split a = false -> isInput a = false ->
  getProp valueMap (ICondition.key a) <> VUndef ->
  isShown valueMap a = true.
Proof.
  intros Hs Hi Hv. unfold isShown. rewrite Hs, Hi. simpl.
  destruct (getProp valueMap (ICondition.key a)); done.
Qed.

Lemma in_setConditionShowIndex (cs : list ICondition.t) (key : string) (show : bool)
    (a' : ICondition.t) :
  In a' (setConditionShowIndex cs key show) <->
  exists a, In a cs
            /\ a' = withShowIndex a
                      (if String.eqb key (ICondition.key a)
                       then Some (if show then nextShowIndex (maxShowIndex cs) else 0%Z)
                       else ICondition.showIndex a).
Proof.
  unfold setConditionShowIndex. rewrite in_map_iff. split.
  - intros (a & <- & Hin). eauto.
  - intros (a & Hin & ->). eauto.
Qed.

Lemma in_renderedItems (b : Bar) (a : ICondition.t) :
  In a (renderedItems b) <->
  (In a (conditions b) /\ ICondition.split a = true)
  \/ (In a (conditions b) /\ isInput a = true /\ fixedIsFalse a = false)
  \/ In a (showList b).
Proof.
  unfold renderedItems, mainList, inputList. rewrite !in_app_iff, !filter_In.
  rewrite andb_true_iff, negb_true_iff. tauto.
Qed.

Lemma conditionStaysOnClear_spec (a : ICondition.t) :
  conditionStaysOnClear a = true <->
  ICondition.fixed a = Some true \/ (isInput a = true /\ fixedIsFalse a = false).
Proof.
  unfold conditionStaysOnClear, staysOnClear, isInput, fixedIsFalse.
  destruct (ICondition.fixed a) as [[|]|], (ICondition.type a); simpl;
    split; intros H; try done; try (by left); try (by right);
    destruct H as [? | [? ?]]; done.
Qed.

(** When lodash walks the value map by its keys, the global "Clear
    selected" hands [handelItemChange] the map with each entry reset or
    kept. *)
Lemma handleClearSelected_object (b : Bar) :
  arrayLikeLength (valueMap b) = None ->
  handleClearSelected b
  = handelItemChange
      (setConditions
         (List.map
            (fun pItem => if conditionStaysOnClear pItem then pItem
                          else withShowIndex pItem (Some 0%Z))
            (conditions b)) b)
      (ValueMapArg
         (map_imap
            (fun _k _v =>
               Some (if lookedUpStaysOnClear (arrayGet (conditions b) _k) then _v
                     else nullish (optGetProp (initValue (props b)) _k) VUndef))
            (valueMap b)))
      false.
Proof. intros Hobj. unfold handleClearSelected, clearedValueMap. by rewrite Hobj. Qed.

Lemma closeIconShown_spec (a : ICondition.t) :
  closeIconShown a = true <->
  default false (ICondition.fixed a) = false /\ isInput a = false.
Proof.
  unfold closeIconShown, isInput.
  destruct (default false (ICondition.fixed a)),
           (ConditionType_eqb (ICondition.type a) input); simpl; split; intros; try done.
  - by destruct H.
  - by destruct H.
  - by destruct H.
Qed.

(** X6: a click on the close icon of an item leaves no value under the
    item's key and sets the item's [showIndex] to 0.  The item leaves the
    show list; it is still rendered exactly when it is split off to the
    front row, where a split item that is not fixed has a close icon too.
    Whatever the bar still renders under that key is split off to the
    front, a text input of the front row, or a fixed condition.  Upstream
    is told, with the value map in which the key is bound to [undefined],
    exactly when there was a value. *)
Theorem close_icon_hides (b : Bar) (item : ICondition.t) :
  closeIconShown item = true ->
  getProp (valueMap (fst (step b (ClickClose item)))) (ICondition.key item) = VUndef
  /\ (forall a, In a (showList (fst (step b (ClickClose item)))) ->
        ICondition.key a = ICondition.key item -> ICondition.fixed a = Some true)
  /\ (In item (conditions b) ->
      In (withShowIndex item (Some 0%Z)) (conditions (fst (step b (ClickClose item))))
      /\ ~ In (withShowIndex item (Some 0%Z)) (showList (fst (step b (ClickClose item))))
      /\ (In (withShowIndex item (Some 0%Z))
             (renderedItems (fst (step b (ClickClose item))))
          <-> ICondition.split item = true))
  /\ (forall a, In a (renderedItems (fst (step b (ClickClose item)))) ->
        ICondition.key a = ICondition.key item ->
        ICondition.split a = true
        \/ (isInput a = true /\ fixedIsFalse a = false)
        \/ ICondition.fixed a = Some true)
  /\ (getProp (valueMap b) (ICondition.key item) = VUndef ->
      snd (step b (ClickClose item)) = [])
  /\ (getProp (valueMap b) (ICondition.key item) <> VUndef ->
      exists m,
        (snd (step b (ClickClose item))
           = [CallDebouncedChange (debouncedChange b) m (VStr (ICondition.key item))]
         \/ snd (step b (ClickClose item))
            = [CallOnChange m (VStr (ICondition.key item))])
        /\ m !! ICondition.key item = Some VUndef).
Proof.
  intros Hclose.
  assert (valueMap (fst (step b (ClickClose item)))
          = match getProp (valueMap b) (ICondition.key item) with
            | VUndef => valueMap b
            | _ => <[ICondition.key item := VUndef]> (valueMap b)
            end
          /\ conditions (fst (step b (ClickClose item)))
             = setConditionShowIndex (conditions b) (ICondition.key item) false) as [Hvm Hcs].
  { unfold step. simpl. unfold onCloseClick.
    destruct (getProp (valueMap b) (ICondition.key item)); done. }
  assert (getProp (valueMap (fst (step b (ClickClose item)))) (ICondition.key item)
          = VUndef) as Hundef.
  { rewrite Hvm. destruct (getProp (valueMap b) (ICondition.key item)) eqn:E;
      try exact E; unfold getProp; by rewrite lookup_insert_eq. }
  assert (forall a, In a (showList (fst (step b (ClickClose item)))) ->
            ICondition.key a = ICondition.key item -> ICondition.fixed a = Some true)
    as Hshown.
  { intros a Hin Hk. apply in_showList in Hin as [Hin Hs].
    rewrite Hcs in Hin. apply in_setConditionShowIndex in Hin as (a0 & _ & Ha).
    rewrite isShown_undefined in Hs by (by rewrite Hk).
    assert (ICondition.key a0 = ICondition.key item) as Hk0 by (by rewrite Ha in Hk).
    rewrite Hk0, String.eqb_refl in Ha.
    assert (showIndexTruthy a = false) as Ht by (by rewrite Ha).
    rewrite Ht in Hs. simpl in Hs.
    destruct (ICondition.split a), (isInput a); simpl in Hs; try done.
    destruct (ICondition.fixed a) as [[|]|]; done. }
  pose proof Hclose as Hicon. apply closeIconShown_spec in Hicon as [Hfixed Hinput].
  repeat apply conj.
  - exact Hundef.
  - exact Hshown.
  - intros Hin.
    assert (In (withShowIndex item (Some 0%Z))
              (conditions (fst (step b (ClickClose item))))) as Hin0.
    { rewrite Hcs. apply in_setConditionShowIndex. exists item.
      by rewrite String.eqb_refl. }
    assert (~ In (withShowIndex item (Some 0%Z))
                (showList (fst (step b (ClickClose item))))) as Hout.
    { intros Hin'. specialize (Hshown _ Hin' eq_refl). simpl in Hshown.
      by rewrite Hshown in Hfixed. }
    split; [exact Hin0|]. split; [exact Hout|].
    rewrite in_renderedItems. split.
    + intros [[_ Hs] | [(_ & Hi & _) | Hs]]; [exact Hs | | by destruct Hout].
      unfold isInput in *. simpl in Hi. congruence.
    + intros Hs. left. done.
  - intros a Hin Hk. apply in_renderedItems in Hin as [[_ Hs] | [(_ & Hi & Hf) | Hs]].
    + by left.
    + right. by left.
    + right. right. by apply Hshown.
  - intros Hv. unfold step. simpl. unfold onCloseClick. by rewrite Hv.
  - intros Hv. unfold step. simpl. unfold onCloseClick.
    destruct (getProp (valueMap b) (ICondition.key item)) eqn:E; [done|..];
      simpl; eexists;
      (split; [match goal with |- context [if ?c then _ else _] => destruct c end;
               [left | right]; reflexivity
              | by rewrite lookup_insert_eq]).
Qed.

(** X7: the global "Clear selected", on a bar without [initValue] whose
    value map lodash walks by its keys (it has no [length] entry that is an
    integer from 0 to 2^53 - 1) and has no key that is the numeral of a
    list position, leaves every value [undefined].  After it the bar
    renders exactly the conditions that are split off to the front (those
    of them that do not stay, with [showIndex] 0) and the conditions that
    stay on a clear, which are the fixed ones and the text inputs not
    marked [fixed: false]: every other condition is off the bar.  Its show
    list holds exactly the fixed conditions that are neither split nor
    text inputs. *)
Theorem clear_selected_hides_optional (b : Bar) :
  initValue (props b) = None ->
  arrayLikeLength (valueMap b) = None ->
  (forall k, is_Some (valueMap b !! k) -> arrayGet (conditions b) k = None) ->
  (forall k, getProp (valueMap (fst (step b ClickClearSelected))) k = VUndef)
  /\ (forall a,
        In a (showList (fst (step b ClickClearSelected))) <->
        In a (conditions b)
        /\ ICondition.split a = false
        /\ isInput a = false
        /\ ICondition.fixed a = Some true)
  /\ (forall a,
        In a (renderedItems (fst (step b ClickClearSelected))) <->
        exists a0,
          In a0 (conditions b)
          /\ ((a = a0
               /\ (ICondition.fixed a0 = Some true
                   \/ (ICondition.type a0 = input /\ ICondition.fixed a0 <> Some false)))
              \/ (a = withShowIndex a0 (Some 0%Z)
                  /\ ICondition.split a0 = true
                  /\ ICondition.fixed a0 <> Some true
                  /\ (ICondition.type a0 <> input \/ ICondition.fixed a0 = Some false)))).
Proof.
  intros Hinit Hobj Hkeys.
  assert (fst (step b ClickClearSelected)
          = commit (fst (handelItemChange
              (setConditions
                 (List.map
                    (fun pItem => if conditionStaysOnClear pItem then pItem
                                  else withShowIndex pItem (Some 0%Z))
                    (conditions b)) b)
              (ValueMapArg
                 (map_imap
                    (fun _k _v =>
                       Some (if lookedUpStaysOnClear (arrayGet (conditions b) _k) then _v
                             else nullish (optGetProp (initValue (props b)) _k) VUndef))
                    (valueMap b)))
              false))) as Hstep.
  { rewrite step_fst. unfold handle. by rewrite (handleClearSelected_object b Hobj). }
  assert (forall k, getProp (valueMap (fst (step b ClickClearSelected))) k = VUndef)
    as Hundef.
  { intros k. rewrite Hstep. unfold getProp. simpl. rewrite lookup_union, map_lookup_imap.
    destruct (valueMap b !! k) as [v|] eqn:E; simpl; [|done].
    rewrite (Hkeys k) by eauto. rewrite Hinit. done. }
  assert (conditions (fst (step b ClickClearSelected))
          = List.map
              (fun pItem => if conditionStaysOnClear pItem then pItem
                            else withShowIndex pItem (Some 0%Z))
              (conditions b)) as Hcs by (by rewrite Hstep).
  assert (forall a,
            In a (showList (fst (step b ClickClearSelected))) <->
            In a (conditions b)
            /\ ICondition.split a = false
            /\ isInput a = false
            /\ ICondition.fixed a = Some true) as Hshow.
  { intros a. rewrite in_showList, isShown_undefined by apply Hundef.
    rewrite Hcs, in_map_iff. split.
    - intros [(a0 & Ha & Hin) Hs].
      unfold conditionStaysOnClear, staysOnClear in Ha.
      destruct a0 as [k l ty sp fx si os fsl rq md]. simpl in *.
      destruct fx as [[|]|], ty; simpl in Ha; subst a;
        unfold isInput, showIndexTruthy, fixedIsFalse in *; simpl in *;
        destruct sp; simpl in Hs; try discriminate; try done;
        rewrite ?andb_false_r in Hs; try discriminate.
    - intros (Hin & Hsp & Hi & Hf). split.
      + exists a. split; [|done]. unfold conditionStaysOnClear, staysOnClear.
        by rewrite Hf.
      + rewrite Hsp, Hi, Hf. simpl. apply orb_true_r. }
  split; [exact Hundef|]. split; [exact Hshow|].
  assert (forall a,
            In a (renderedItems (fst (step b ClickClearSelected))) <->
            exists a0,
              In a0 (conditions b)
              /\ a = (if conditionStaysOnClear a0 then a0 else withShowIndex a0 (Some 0%Z))
              /\ (ICondition.split a0 = true \/ conditionStaysOnClear a0 = true)) as Hrender.
  { intros a. rewrite in_renderedItems, Hshow, Hcs, !in_map_iff. split.
    - intros [[(a0 & Ha & Hin) Hs] | [[(a0 & Ha & Hin) [Hi Hf]] | (Hin & Hs & Hi & Hf)]].
      + exists a0. split; [done|]. split; [done|]. left.
        rewrite <- Ha in Hs. by destruct (conditionStaysOnClear a0).
      + exists a0. split; [done|]. split; [done|]. right.
        apply conditionStaysOnClear_spec. right.
        rewrite <- Ha in Hi, Hf. by destruct (conditionStaysOnClear a0).
      + exists a.
        assert (conditionStaysOnClear a = true) as Hstay
          by (apply conditionStaysOnClear_spec; by left).
        rewrite Hstay. split; [done|]. split; [done | by right].
    - intros (a0 & Hin & -> & Hcase).
      destruct (conditionStaysOnClear a0) eqn:Hstay.
      + destruct (ICondition.split a0) eqn:Hs.
        * left. split; [|done]. exists a0. by rewrite Hstay.
        * apply conditionStaysOnClear_spec in Hstay as Hwhy.
          destruct (isInput a0) eqn:Hi.
          -- right. left. split; [exists a0; by rewrite Hstay|]. split; [done|].
             destruct Hwhy as [Hf | [_ Hf]]; [|done].
             unfold fixedIsFalse. by rewrite Hf.
          -- right. right. split; [done|]. split; [done|]. split; [done|].
             destruct Hwhy as [Hf | [? _]]; done.
      + destruct Hcase as [Hs | ?]; [|done].
        left. split; [|done]. exists a0. by rewrite Hstay. }
  assert (forall a0,
            conditionStaysOnClear a0 = true <->
            ICondition.fixed a0 = Some true
            \/ (ICondition.type a0 = input /\ ICondition.fixed a0 <> Some false)) as Hstays.
  { intros a0. unfold conditionStaysOnClear, staysOnClear.
    destruct (ICondition.fixed a0) as [[|]|], (ICondition.type a0); simpl;
      split; intros H; try done; try (by left); try (by right);
      destruct H as [? | [? ?]]; done. }
  intros a. rewrite Hrender. split.
  - intros (a0 & Hin & -> & Hcase). exists a0. split; [done|].
    destruct (conditionStaysOnClear a0) eqn:Hstay.
    + left. split; [done|]. by apply Hstays.
    + right. destruct Hcase as [Hs | ?]; [|done]. split; [done|]. split; [done|].
      assert (~ (ICondition.fixed a0 = Some true
                 \/ (ICondition.type a0 = input /\ ICondition.fixed a0 <> Some false)))
        as Hno by (rewrite <- Hstays, Hstay; done).
      split; [tauto|].
      destruct (ICondition.type a0); try (left; discriminate).
      right. destruct (ICondition.fixed a0) as [[|]|]; try done;
        exfalso; apply Hno; right; done.
  - intros (a0 & Hin & [[-> Hwhy] | (-> & Hs & Hnf & Hni)]); exists a0;
      (split; [done|]).
    + apply Hstays in Hwhy. rewrite Hwhy. split; [done | by right].
    + assert (conditionStaysOnClear a0 = false) as Hstay.
      { destruct (conditionStaysOnClear a0) eqn:E; [|done].
        apply Hstays in E as [? | [? ?]]; [done|]. destruct Hni; done. }
      rewrite Hstay. split; [done | by left].
Qed.

End ShowListFacts.

Section ShowListExamples.

Import ContractiveFilter FilterBarView.

(** The theorem at the shown "status" condition, which holds a value:
    after the click the key reads [undefined] and one call goes upstream. *)
Lemma close_icon_hides_witness :
  getProp (valueMap (fst (step MoreSamples.viewBar (ClickClose MoreSamples.shownCondition))))
    "status" = VUndef
  /\ snd (step MoreSamples.viewBar (ClickClose MoreSamples.shownCondition))
     = [CallOnChange (<["status" := VUndef]> ∅) (VStr "status")].
Proof.
  pose proof (close_icon_hides MoreSamples.viewBar MoreSamples.shownCondition eq_refl)
    as (H1 & _).
  split; [exact H1 | reflexivity].
Defined.

Lemma viewBar_keys (k : string) :
  is_Some (valueMap MoreSamples.viewBar !! k) ->
  arrayGet (conditions MoreSamples.viewBar) k = None.
Proof.
  intros [v Hv]. simpl in Hv.
  destruct (decide (k = "status")) as [->|Hne]; [reflexivity|].
  rewrite lookup_insert_ne in Hv by done. rewrite lookup_empty in Hv. discriminate.
Qed.

(** The theorem at the sample bar: after "Clear selected" the fixed
    "project" condition is shown. *)
Lemma clear_selected_hides_optional_witness :
  In MoreSamples.fixedCondition
    (showList (fst (step MoreSamples.viewBar ClickClearSelected))).
Proof.
  apply (proj2 (proj1 (proj2 (clear_selected_hides_optional MoreSamples.viewBar
                                eq_refl eq_refl viewBar_keys))
                  MoreSamples.fixedCondition)).
  repeat split. simpl. tauto.
Defined.

(** Before the click the bar shows "project" and then "status"; after it,
    "project" only. *)
Example showList_samples :
  showList MoreSamples.viewBar = [MoreSamples.fixedCondition; MoreSamples.shownCondition]
  /\ showList (fst (step MoreSamples.viewBar ClickClearSelected))
     = [MoreSamples.fixedCondition].
Proof. split; reflexivity. Qed.

(** A split condition that is not fixed has a close icon, and is still
    rendered, in the front row, after a click on it. *)
Example close_icon_split_sample :
  closeIconShown MoreSamples.splitCondition = true
  /\ renderedItems MoreSamples.splitBar
     = [MoreSamples.splitCondition; MoreSamples.fixedCondition]
  /\ renderedItems (fst (step MoreSamples.splitBar (ClickClose MoreSamples.splitCondition)))
     = [withShowIndex MoreSamples.splitCondition (Some 0%Z); MoreSamples.fixedCondition]
  /\ getProp (valueMap (fst (step MoreSamples.splitBar
                                (ClickClose MoreSamples.splitCondition)))) "branch"
     = VUndef.
Proof. repeat split. Qed.

(** A value map whose [length] entry holds 1 is walked as an array of one
    element: the callback is given the index 0 only, finds the optional
    first condition there and binds the key "0" to [undefined]; the value
    under "status" is left as it is, and "status" stays on the bar. *)
Example clear_selected_array_like :
  arrayLikeLength (valueMap MoreSamples.arrayLikeBar) = Some 1%Z
  /\ valueMap (fst (step MoreSamples.arrayLikeBar ClickClearSelected)) !! "status"
     = Some (VArr [VStr "open"])
  /\ valueMap (fst (step MoreSamples.arrayLikeBar ClickClearSelected)) !! "length"
     = Some (VNum 1)
  /\ valueMap (fst (step MoreSamples.arrayLikeBar ClickClearSelected)) !! "0"
     = Some VUndef
  /\ List.map ICondition.key
       (showList (fst (step MoreSamples.arrayLikeBar ClickClearSelected)))
     = ["status"; "length"].
Proof. repeat split. Qed.

(** With a [length] entry of 2^32 the walk throws before the callback is
    called: the value map stays as it is and nothing is handed upstream. *)
Example clear_selected_range_error :
  step (setValueMap (<["length" := VNum (2 ^ 32)]> (valueMap MoreSamples.viewBar))
          MoreSamples.viewBar)
    ClickClearSelected
  = (commit
       (setConditions
          [MoreSamples.titleInput; MoreSamples.fixedCondition;
           withShowIndex MoreSamples.shownCondition (Some 0%Z);
           withShowIndex MoreSamples.hiddenCondition (Some 0%Z)]
          (setValueMap (<["length" := VNum (2 ^ 32)]> (valueMap MoreSamples.viewBar))
             MoreSamples.viewBar)),
     []).
Proof. reflexivity. Qed.

End ShowListExamples.

(** ** The more-conditions menu *)

Section MenuFacts.

Import ContractiveFilter FilterBarView.

Lemma handleClick_conditions (b : Bar) (item : ICondition.t) :
  conditions (handleClick b item)
  = setConditionShowIndex (conditions b) (ICondition.key item)
      (negb (haveShow b (ICondition.key item)))
  /\ valueMap (handleClick b item) = valueMap b.
Proof. unfold handleClick. destruct (haveShow b (ICondition.key item)); done. Qed.

(** The [showIndex] given to a condition that is put on the bar. *)
Lemma freshShowIndex_nonzero (cs : list ICondition.t) :
  maxShowIndex cs <> Some (-1)%Z ->
  nextShowIndex (maxShowIndex cs) <> 0%Z.
Proof.
  intros Hmax. unfold nextShowIndex, plus1. apply roundToDouble_nonzero.
  destruct (maxShowIndex cs) as [m|]; [|done]. simpl.
  destruct (m =? 0)%Z eqn:E; simpl; [lia|]. intros H. apply Hmax. f_equal. lia.
Qed.

Lemma isShown_fresh (valueMap : gmap string jsval) (item : ICondition.t) (n : Z) :
  ICondition.split item = false ->
  conditionStaysOnClear item = false ->
  n <> 0%Z ->
  isShown valueMap (withShowIndex item (Some n)) = true.
Proof.
  intros Hs Hopt Hn. unfold isShown, isInput, showIndexTruthy, fixedIsFalse. simpl.
  rewrite Hs. unfold conditionStaysOnClear, staysOnClear in Hopt.
  destruct (n =? 0)%Z eqn:E; [lia|]. simpl.
  destruct (ICondition.fixed item) as [[|]|], (ICondition.type item);
    simpl in *; try discriminate;
    repeat match goal with |- context [if ?c then _ else _] => destruct c end;
    done.
Qed.

(** X8: for a condition that has an entry in the more-conditions menu and
    is not split off: a click on the entry of a condition that is off the
    bar puts the condition on the bar and opens its dropdown (unless the greatest
    [showIndex] so far is -1, which the click turns into the hiding 0); a
    click on the entry of a condition that is on the bar takes it off when
    it holds no value, but leaves it on when it holds one (other than a
    text input): the entry does not clear the value.  The click never
    touches the value map. *)
Theorem menu_entry_toggles (toLowerCase : string -> string) (hideFilterKey : string)
    (b : Bar) (item : ICondition.t) :
  In item (conditions b) ->
  ICondition.split item = false ->
  menuEntryShown toLowerCase hideFilterKey item = true ->
  valueMap (handleClick b item) = valueMap b
  /\ (haveShow b (ICondition.key item) = false ->
      maxShowIndex (conditions b) <> Some (-1)%Z ->
      haveShow (handleClick b item) (ICondition.key item) = true
      /\ activeMap (handleClick b item) !! ICondition.key item = Some true)
  /\ (haveShow b (ICondition.key item) = true ->
      isInput item = false ->
      getProp (valueMap b) (ICondition.key item) <> VUndef ->
      haveShow (handleClick b item) (ICondition.key item) = true)
  /\ (haveShow b (ICondition.key item) = true ->
      getProp (valueMap b) (ICondition.key item) = VUndef ->
      (forall a, In a (conditions b) -> ICondition.key a = ICondition.key item ->
                 conditionStaysOnClear a = false) ->
      haveShow (handleClick b item) (ICondition.key item) = false).
Proof.
  intros Hin Hsplit Hentry.
  assert (conditionStaysOnClear item = false) as Hopt.
  { unfold menuEntryShown in Hentry. apply negb_true_iff in Hentry.
    by apply orb_false_iff in Hentry as [? _]. }
  destruct (handleClick_conditions b item) as [Hcs Hvm].
  split; [exact Hvm|]. repeat apply conj.
  - intros Hoff Hmax. split.
    + apply haveShow_true.
      exists (withShowIndex item (Some (nextShowIndex (maxShowIndex (conditions b))))).
      split; [|done]. apply in_showList. split.
      * rewrite Hcs, Hoff. apply in_setConditionShowIndex. exists item.
        split; [done|]. by rewrite String.eqb_refl.
      * apply isShown_fresh; [done | done | by apply freshShowIndex_nonzero].
    + unfold handleClick. rewrite Hoff. simpl. by rewrite lookup_insert_eq.
  - intros Hon Hi Hv. apply haveShow_true.
    exists (withShowIndex item (Some 0%Z)). split; [|done].
    apply in_showList. split.
    + rewrite Hcs, Hon. apply in_setConditionShowIndex. exists item.
      split; [done|]. by rewrite String.eqb_refl.
    + rewrite Hvm. apply isShown_value; done.
  - intros Hon Hv Hall. destruct (haveShow (handleClick b item) _) eqn:E; [|done].
    exfalso. apply haveShow_true in E as (a & Ha & Hk).
    apply in_showList in Ha as [Ha Hs]. rewrite Hvm in Hs.
    rewrite isShown_undefined in Hs by (by rewrite Hk).
    rewrite Hcs, Hon in Ha. apply in_setConditionShowIndex in Ha as (a0 & Hin0 & Ha).
    assert (ICondition.key a0 = ICondition.key item) as Hk0 by (by rewrite Ha in Hk).
    rewrite Hk0, String.eqb_refl in Ha. specialize (Hall a0 Hin0 Hk0).
    unfold conditionStaysOnClear, staysOnClear in Hall.
    subst a. unfold showIndexTruthy, isInput, fixedIsFalse in Hs. simpl in Hs.
    destruct (ICondition.split a0), (ICondition.fixed a0) as [[|]|],
             (ICondition.type a0); simpl in *; discriminate.
Qed.

End MenuFacts.

Section MenuExamples.

Import ContractiveFilter FilterBarView.

(** The theorem at the hidden "owner" condition of the sample bar: the
    click shows it and opens its dropdown. *)
Lemma menu_entry_toggles_witness :
  haveShow (handleClick MoreSamples.viewBar MoreSamples.hiddenCondition) "owner" = true
  /\ activeMap (handleClick MoreSamples.viewBar MoreSamples.hiddenCondition) !! "owner"
     = Some true.
Proof.
  apply (proj1 (proj2 (menu_entry_toggles Samples.asciiLower "own"
                         MoreSamples.viewBar MoreSamples.hiddenCondition
                         ltac:(simpl; tauto) eq_refl eq_refl))).
  - reflexivity.
  - discriminate.
Defined.

End MenuExamples.

(** ** The items of the bar *)

Section RenderedFacts.

Import ContractiveFilter FilterBarView.

Lemma filter_app_perm {A : Type} (p q : A -> bool) (l : list A) :
  (forall a, In a l -> p a = true -> q a = true -> False) ->
  Permutation (List.filter p l ++ List.filter q l)
    (List.filter (fun a => p a || q a) l).
Proof.
  induction l as [|x l IH]; intros Hex; simpl; [done|].
  assert (Permutation (List.filter p l ++ List.filter q l)
            (List.filter (fun a => p a || q a) l)) as IH'
    by (apply IH; intros a Ha; apply Hex; by right).
  destruct (p x) eqn:Hp, (q x) eqn:Hq; simpl.
  - exfalso. apply (Hex x); [by left | done | done].
  - by constructor.
  - rewrite <- Permutation_middle. by constructor.
  - exact IH'.
Qed.

Lemma NoDup_map_filter {A B : Type} (f : A -> B) (p : A -> bool) (l : list A) :
  List.NoDup (List.map f l) -> List.NoDup (List.map f (List.filter p l)).
Proof.
  induction l as [|x l IH]; simpl; [done|].
  intros Hnd. apply List.NoDup_cons_iff in Hnd as [Hx Hnd].
  destruct (p x); simpl; [|auto].
  apply List.NoDup_cons_iff. split; [|auto].
  intros Hin. apply Hx. apply in_map_iff in Hin as (a & Ha & Hin).
  apply filter_In in Hin as [Hin _]. apply in_map_iff. eauto.
Qed.

Lemma isShown_not_split (valueMap : gmap string jsval) (a : ICondition.t) :
  isShown valueMap a = true -> ICondition.split a = false.
Proof. unfold isShown. destruct (ICondition.split a); done. Qed.

Lemma isShown_input (valueMap : gmap string jsval) (a : ICondition.t) :
  isShown valueMap a = true -> isInput a = true -> fixedIsFalse a = true.
Proof.
  unfold isShown. destruct (ICondition.split a); [done|]. intros Hs Hi.
  rewrite Hi in Hs. simpl in Hs. by apply andb_true_iff in Hs as [_ ?].
Qed.

(** X9: when the keys of the conditions are pairwise distinct, the items
    of the bar have pairwise distinct keys too, provided no condition is
    both split off to the front and a text input of the front row; such a
    condition is rendered twice, once in either place. *)
Theorem rendered_keys_distinct (b : Bar) :
  List.NoDup (List.map ICondition.key (conditions b)) ->
  ((forall a, In a (conditions b) ->
      ~ (ICondition.split a = true /\ isInput a = true /\ fixedIsFalse a = false)) ->
   List.NoDup (List.map ICondition.key (renderedItems b)))
  /\ (forall a, In a (conditions b) ->
        ICondition.split a = true -> isInput a = true -> fixedIsFalse a = false ->
        In a (mainList (conditions b)) /\ In a (inputList (conditions b))).
Proof.
  intros Hnd. split.
  - intros Hex. unfold renderedItems, showList, mainList, inputList.
    eapply Permutation_NoDup.
    + apply Permutation_map. symmetry.
      etransitivity.
      * apply Permutation_app_head. apply Permutation_app_head.
        apply sortByShowIndex_perm.
      * etransitivity.
        -- apply Permutation_app_head. apply filter_app_perm.
           intros a Ha Hp Hq. apply andb_true_iff in Hp as [Hi Hf].
           apply (isShown_input _ _ Hq) in Hi. rewrite Hi in Hf. discriminate.
        -- apply filter_app_perm. intros a Ha Hp Hq.
           apply orb_true_iff in Hq as [Hq | Hq].
           ++ apply andb_true_iff in Hq as [Hi Hf]. apply (Hex a Ha).
              apply negb_true_iff in Hf. done.
           ++ apply isShown_not_split in Hq. congruence.
    + by apply NoDup_map_filter.
  - intros a Ha Hs Hi Hf. unfold mainList, inputList. rewrite !filter_In.
    rewrite Hs, Hi, Hf. done.
Qed.

End RenderedFacts.

Section RenderedExamples.

Import ContractiveFilter FilterBarView.

(** The theorem at the sample bar: the text input first, then the fixed
    and the shown condition, each once. *)
Lemma rendered_keys_distinct_witness :
  List.NoDup (List.map ICondition.key (renderedItems MoreSamples.viewBar)).
Proof.
  apply (proj1 (rendered_keys_distinct MoreSamples.viewBar
                  ltac:(repeat constructor; simpl; intuition discriminate))).
  intros a Ha (Hs & _). simpl in Ha.
  destruct Ha as [<- | [<- | [<- | [<- | []]]]]; discriminate.
Defined.

Example renderedItems_sample :
  renderedItems MoreSamples.viewBar
  = [MoreSamples.titleInput; MoreSamples.fixedCondition; MoreSamples.shownCondition].
Proof. reflexivity. Qed.

End RenderedExamples.

(** ** What the events of the bar leave alone *)

Section BarMoreFacts.

Import ContractiveFilter FilterBarView.

Lemma onItemEvent_conditions (item : ICondition.t) (b : Bar) (e : ItemEvent) :
  conditions (fst (onItemEvent item b e)) = conditions b.
Proof. by destruct e. Qed.

Lemma onItemEvents_conditions (item : ICondition.t) (es : list ItemEvent) (b : Bar) :
  conditions (fst (onItemEvents item b es)) = conditions b.
Proof.
  revert b. induction es as [|e es IH]; intros b; simpl; [done|].
  pose proof (onItemEvent_conditions item b e) as H1.
  destruct (onItemEvent item b e) as [b1 calls1]. simpl in H1.
  pose proof (IH b1) as H2.
  destruct (onItemEvents item b1 es) as [b2 calls2]. simpl in *. congruence.
Qed.

Lemma Forall2_sameButShowIndex_refl (cs : list ICondition.t) :
  Forall2 sameButShowIndex cs cs.
Proof. induction cs; constructor; [apply sameButShowIndex_refl | done]. Qed.

Lemma Forall2_sameButShowIndex_keys (cs cs' : list ICondition.t) :
  Forall2 sameButShowIndex cs cs' ->
  List.map ICondition.key cs' = List.map ICondition.key cs.
Proof.
  induction 1 as [|a a' cs cs' Ha _ IH]; simpl; [done|].
  rewrite IH. f_equal. unfold sameButShowIndex in Ha. by rewrite Ha.
Qed.

Lemma step_conditions_frame (b : Bar) (ev : BarEvent) :
  Forall2 sameButShowIndex (conditions b) (conditions (fst (step b ev))).
Proof.
  rewrite step_fst. simpl. destruct ev as [item es| |item|vs]; simpl.
  - rewrite onItemEvents_conditions. apply Forall2_sameButShowIndex_refl.
  - unfold handleClearSelected. destruct (clearedValueMap b); simpl;
      apply Forall2_map_same; intros a; destruct (conditionStaysOnClear a);
      (apply sameButShowIndex_refl || apply sameButShowIndex_withShowIndex).
  - unfold onCloseClick.
    destruct (getProp (valueMap b) (ICondition.key item)); simpl;
      apply setConditionShowIndex_frame.
  - apply Forall2_sameButShowIndex_refl.
Qed.

(** X10: no event of the bar, and no click in the more-conditions menu,
    adds, removes or reorders conditions, or changes anything of a
    condition but its [showIndex]; in particular the keys stay as they
    are, in their order. *)
Theorem conditions_keep_all_but_showIndex (b : Bar) :
  (forall ev,
     Forall2 sameButShowIndex (conditions b) (conditions (fst (step b ev)))
     /\ List.map ICondition.key (conditions (fst (step b ev)))
        = List.map ICondition.key (conditions b))
  /\ (forall item,
        Forall2 sameButShowIndex (conditions b) (conditions (handleClick b item))
        /\ List.map ICondition.key (conditions (handleClick b item))
           = List.map ICondition.key (conditions b)).
Proof.
  split.
  - intros ev. pose proof (step_conditions_frame b ev) as H.
    split; [exact H | by apply Forall2_sameButShowIndex_keys].
  - intros item. rewrite (proj1 (handleClick_conditions b item)).
    pose proof (setConditionShowIndex_frame (conditions b) (ICondition.key item)
                  (negb (haveShow b (ICondition.key item)))) as H.
    split; [exact H | by apply Forall2_sameButShowIndex_keys].
Qed.

Lemma onItemEvent_keeps_keys (item : ICondition.t) (b : Bar) (e : ItemEvent) (k : string) :
  is_Some (valueMap b !! k) -> is_Some (valueMap (fst (onItemEvent item b e)) !! k).
Proof.
  destruct e as [key v f| | |]; simpl; try done.
  intros Hk. apply lookup_insert_is_Some.
  destruct (decide (key = k)); [by left | by right].
Qed.

Lemma onItemEvents_keeps_keys (item : ICondition.t) (es : list ItemEvent) (b : Bar)
    (k : string) :
  is_Some (valueMap b !! k) -> is_Some (valueMap (fst (onItemEvents item b es)) !! k).
Proof.
  revert b. induction es as [|e es IH]; intros b Hk; simpl; [done|].
  pose proof (onItemEvent_keeps_keys item b e k Hk) as H1.
  destruct (onItemEvent item b e) as [b1 calls1]. simpl in H1.
  pose proof (IH b1 H1) as H2.
  destruct (onItemEvents item b1 es) as [b2 calls2]. done.
Qed.

Lemma onItemEvents_calls_keep_keys (item : ICondition.t) (es : list ItemEvent)
    (b : Bar) (k : string) (call : Call) :
  is_Some (valueMapRef b !! k) ->
  In call (snd (onItemEvents item b es)) ->
  match call with
  | CallDebouncedChange _ m _ | CallOnChange m _ => is_Some (m !! k)
  | _ => True
  end.
Proof.
  revert b. induction es as [|e es IH]; intros b Hk; simpl; [done|].
  assert (valueMapRef (fst (onItemEvent item b e)) = valueMapRef b) as Href
    by (by destruct e).
  assert (forall c, In c (snd (onItemEvent item b e)) ->
            match c with
            | CallDebouncedChange _ m _ | CallOnChange m _ => is_Some (m !! k)
            | _ => True
            end) as Hone.
  { destruct e as [key v f| | |]; simpl; try done.
    - intros c [<- | []].
      match goal with |- context [if ?c then _ else _] => destruct c end;
        apply lookup_insert_is_Some;
        (destruct (decide (key = k)); [by left | by right]).
    - intros c [<- | []]. done.
    - intros c [<- | []]. done. }
  destruct (onItemEvent item b e) as [b1 calls1]. simpl in *.
  specialize (IH b1). rewrite Href in IH. specialize (IH Hk).
  destruct (onItemEvents item b1 es) as [b2 calls2]. simpl in *.
  intros Hin. apply in_app_or in Hin as [Hin | Hin];
    [exact (Hone _ Hin) | exact (IH Hin)].
Qed.

(** X11: short of a new [values] prop, no event removes a key from the
    value map: a value is cleared by binding its key to [undefined], so a
    key that is in the value map is in it after the event, and in every
    value map the event hands upstream. *)
Theorem value_map_keys_stay (p : Props) (b : Bar) (ev : BarEvent) (k : string) :
  reachable p b ->
  (forall vs, ev <> ValuesChanged vs) ->
  is_Some (valueMap b !! k) ->
  is_Some (valueMap (fst (step b ev)) !! k)
  /\ (forall call, In call (snd (step b ev)) ->
        match call with
        | CallDebouncedChange _ m _ | CallOnChange m _ => is_Some (m !! k)
        | _ => True
        end).
Proof.
  intros Hr Hev Hk. destruct (reachable_invariant p b Hr) as (Href & _).
  assert (snd (step b ev) = snd (handle b ev)) as ->
    by (unfold step; by destruct (handle b ev)).
  rewrite step_fst. simpl. split.
  - destruct ev as [item es| |item|vs]; simpl.
    + by apply onItemEvents_keeps_keys.
    + unfold handleClearSelected. destruct (clearedValueMap b); simpl; [|done].
      apply lookup_union_is_Some. by right.
    + unfold onCloseClick.
      destruct (getProp (valueMap b) (ICondition.key item)); simpl; try done;
        apply lookup_insert_is_Some;
        (destruct (decide (ICondition.key item = k)); [by left | by right]).
    + by destruct (Hev vs).
  - intros call. destruct ev as [item es| |item|vs]; simpl.
    + apply onItemEvents_calls_keep_keys. by rewrite Href.
    + unfold handleClearSelected. destruct (clearedValueMap b); simpl; [|done].
      intros [<- | []].
      match goal with |- context [if ?c then _ else _] => destruct c end;
        apply lookup_union_is_Some; right; by rewrite Href.
    + unfold onCloseClick.
      destruct (getProp (valueMap b) (ICondition.key item)); simpl; try done;
        (intros [<- | []];
         match goal with |- context [if ?c then _ else _] => destruct c end;
         apply lookup_insert_is_Some; rewrite Href;
         (destruct (decide (ICondition.key item = k)); [by left | by right])).
    + done.
Qed.

End BarMoreFacts.

Section BarMoreExamples.

Import ContractiveFilter FilterBarView.

Lemma viewBar_reachable : reachable MoreSamples.viewProps MoreSamples.viewBar.
Proof. apply reach_mounted. by unfold mounted. Qed.

(** The theorem at the sample bar and the global "Clear selected": the key
    "status" is still in the value map. *)
Lemma value_map_keys_stay_witness :
  is_Some (valueMap (fst (step MoreSamples.viewBar ClickClearSelected)) !! "status").
Proof.
  exact (proj1 (value_map_keys_stay MoreSamples.viewProps MoreSamples.viewBar
                  ClickClearSelected "status" viewBar_reachable
                  ltac:(intros vs; discriminate)
                  ltac:(by eexists))).
Defined.

End BarMoreExamples.

Section ItemEventsFacts.

Import ContractiveFilter.

Lemma onItemEvent_frame (item : ICondition.t) (b : Bar) (e : ItemEvent) (k : string) :
  (forall v f, e <> ItemChange k v f) ->
  valueMap (fst (onItemEvent item b e)) !! k = valueMap b !! k.
Proof.
  destruct e as [key v f| | |]; simpl; try done.
  intros Hne. apply lookup_insert_ne. intros ->. by apply (Hne v f).
Qed.

Lemma onItemEvent_activeMap (item : ICondition.t) (b : Bar) (e : ItemEvent) (k : string) :
  k <> ICondition.key item ->
  activeMap (fst (onItemEvent item b e)) !! k = activeMap b !! k.
Proof.
  destruct e; simpl; try done. intros Hne. by apply lookup_insert_ne.
Qed.

Lemma onItemEvent_calls (item : ICondition.t) (b : Bar) (e : ItemEvent) (call : Call) :
  In call (snd (onItemEvent item b e)) ->
  match call with
  | CallDebouncedChange _ _ key | CallOnChange _ key =>
      exists k v f, key = VStr k /\ e = ItemChange k v f
  | CallOnQuickOperation k v => e = ItemQuickOperation k v
  | CallMessageError c => e = MessageError c
  end.
Proof.
  destruct e as [key v f| | |]; simpl; try done.
  - intros [<- | []].
    match goal with |- context [if ?c then _ else _] => destruct c end; eauto.
  - intros [<- | []]. done.
  - intros [<- | []]. done.
Qed.

(** X12: serving the events of an item changes the value map only under
    the keys its changes name, and the active map only under the item's
    own key; and every call it makes stems from one of the events: a call
    upstream from a change, with the key of that change, a quick operation
    and an error message from the event of that kind, with its
    arguments. *)
Theorem item_events_frame (item : ICondition.t) (es : list ItemEvent) (b : Bar) :
  (forall k, (forall v f, ~ In (ItemChange k v f) es) ->
     valueMap (fst (onItemEvents item b es)) !! k = valueMap b !! k)
  /\ (forall k, k <> ICondition.key item ->
        activeMap (fst (onItemEvents item b es)) !! k = activeMap b !! k)
  /\ (forall call, In call (snd (onItemEvents item b es)) ->
        match call with
        | CallDebouncedChange _ _ key | CallOnChange _ key =>
            exists k v f, key = VStr k /\ In (ItemChange k v f) es
        | CallOnQuickOperation k v => In (ItemQuickOperation k v) es
        | CallMessageError c => In (MessageError c) es
        end).
Proof.
  revert b. induction es as [|e es IH]; intros b; simpl; [done|].
  pose proof (onItemEvent_frame item b e) as F1.
  pose proof (onItemEvent_activeMap item b e) as F2.
  pose proof (onItemEvent_calls item b e) as F3.
  destruct (onItemEvent item b e) as [b1 calls1]. simpl in *.
  destruct (IH b1) as (I1 & I2 & I3).
  destruct (onItemEvents item b1 es) as [b2 calls2]. simpl in *.
  repeat apply conj.
  - intros k Hk. rewrite I1, F1; [done | |].
    + intros v f ->. apply (Hk v f). by left.
    + intros v f Hin. apply (Hk v f). by right.
  - intros k Hk. by rewrite I2, F2.
  - intros call Hin. apply in_app_or in Hin as [Hin | Hin].
    + specialize (F3 call Hin). destruct call; simpl in *.
      * destruct F3 as (k & v & f & -> & ->). eauto 6.
      * destruct F3 as (k & v & f & -> & ->). eauto 6.
      * by left.
      * by left.
    + specialize (I3 call Hin). destruct call; simpl in *.
      * destruct I3 as (k & v & f & -> & ?). eauto 6.
      * destruct I3 as (k & v & f & -> & ?). eauto 6.
      * by right.
      * by right.
Qed.

End ItemEventsFacts.

(** ** The range picker *)

Section RangePickerFacts.

Import RangePickerFilterItem.

Variable startOfDay : Z -> Z.
Variable endOfDay : Z -> Z.

Lemma convertItem_back (v : TimeVal) :
  v <> TMoment 0 -> convertItem (convertItem v) = v.
Proof.
  destruct v as [| |n|ms]; simpl; try done.
  - destruct (Z.eqb_spec n 0) as [->|Hn]; simpl; [done|]. done.
  - intros Hne. destruct (Z.eqb_spec ms 0) as [->|Hms]; [done|]. done.
Qed.

Lemma valueConvert_back (val : RangeVal) :
  Forall (fun v => v <> TMoment 0) (rangeItems val) ->
  valueConvert (valueConvert val) = val.
Proof.
  destruct val as [v|vs]; simpl.
  - intros H. apply Forall_inv in H. by rewrite convertItem_back.
  - intros H. f_equal. rewrite List.map_map.
    induction H as [|v vs Hv _ IH]; simpl; [done|].
    by rewrite convertItem_back, IH.
Qed.

Lemma pickerVal_no_moment_left (picked : option (list (option Z))) :
  Forall (fun v => isMoment v = false) (rangeItems (valueConvert (pickerVal picked))).
Proof.
  destruct picked as [l|]; simpl.
  - induction l as [|[ms|] l IH]; simpl; constructor; done.
  - by constructor.
Qed.

(** X13: what the range picker passes on holds timestamps and no moment,
    and converting it again, as is done for the picker's [value], gives
    back the moments that were picked (moved to the borders of their days
    under [borderTime]), unless one of them is the instant 0, which comes
    back as the number 0; a list of timestamps converted twice is the
    list itself. *)
Theorem range_picker_round_trip (borderTime : bool)
    (picked : option (list (option Z))) :
  Forall (fun v => isMoment v = false)
    (rangeItems (onChangeValue startOfDay endOfDay borderTime picked))
  /\ (Forall (fun v => v <> TMoment 0)
        (rangeItems (pickerVal (bordered startOfDay endOfDay borderTime picked))) ->
      valueConvert (onChangeValue startOfDay endOfDay borderTime picked)
      = pickerVal (bordered startOfDay endOfDay borderTime picked))
  /\ (forall nums : list Z,
        valueConvert (valueConvert (Range (List.map TNum nums)))
        = Range (List.map TNum nums))
  /\ valueConvert (valueConvert (Range [TMoment 0])) = Range [TNum 0].
Proof.
  unfold onChangeValue. repeat apply conj.
  - apply pickerVal_no_moment_left.
  - apply valueConvert_back.
  - intros nums. apply valueConvert_back. simpl.
    induction nums; simpl; constructor; done.
  - done.
Qed.

End RangePickerFacts.

Section RangePickerExamples.

Import RangePickerFilterItem.

(** With days of 100 ms: a range picked from 250 to 420 is passed on as
    the timestamps 200 and 499 under [borderTime], and shown again as the
    moments at 200 and 499. *)
Example range_picker_sample :
  onChangeValue (fun ms => ms / 100 * 100)%Z (fun ms => ms / 100 * 100 + 99)%Z true
    (Some [Some 250; Some 420])%Z
  = Range [TNum 200; TNum 499]
  /\ valueConvert (Range [TNum 200; TNum 499]) = Range [TMoment 200; TMoment 499].
Proof. split; reflexivity. Qed.

End RangePickerExamples.

(** ** The iteration page: fetches and the dialog *)

Section IterationMoreFacts.

Import IterationPage IterationFlow.

Variable toNumber : string -> jsval.

(** X14: in the payload of a fetch the project id always is the one of
    the route, whatever the caller of [getList] passes; any other key the
    caller passes overrides the tab's query (page 1 and the tab's state);
    and the payload holds nothing but these. *)
Theorem getList_precedence (s : Page) (q : gmap string jsval) :
  exists payload,
    getList toNumber s q = getIterations payload
    /\ payload !! "projectID" = Some (toNumber (projectId s))
    /\ (forall k v, k <> "projectID" -> q !! k = Some v -> payload !! k = Some v)
    /\ (q !! "pageNo" = None -> payload !! "pageNo" = Some (VNum 1))
    /\ (q !! "state" = None -> payload !! "state" = Some (iterationStateOf (status s)))
    /\ (forall k, is_Some (payload !! k) ->
          k = "projectID" \/ k = "state" \/ k = "pageNo" \/ is_Some (q !! k)).
Proof.
  unfold getList. eexists. split; [reflexivity|]. repeat apply conj.
  - by rewrite lookup_insert_eq.
  - intros k v Hk Hq. rewrite lookup_insert_ne by done.
    by apply lookup_union_Some_l.
  - intros Hq. rewrite lookup_insert_ne by done. by rewrite lookup_union_r.
  - intros Hq. rewrite lookup_insert_ne by done. by rewrite lookup_union_r.
  - intros k Hk. destruct (decide (k = "projectID")) as [->|Hp]; [by left|].
    rewrite lookup_insert_ne in Hk by done.
    apply lookup_union_is_Some in Hk as [Hk | Hk]; [by right; right; right|].
    unfold query in Hk.
    destruct (decide (k = "state")) as [->|Hs]; [by right; left|].
    rewrite lookup_insert_ne in Hk by done.
    destruct (decide (k = "pageNo")) as [->|Hn]; [by right; right; left|].
    rewrite lookup_insert_ne in Hk by done. rewrite lookup_empty in Hk.
    by destruct Hk.
Qed.

Lemma dialog_invariant (projectId : string) (s : Page) :
  pageReachable toNumber projectId s ->
  modalVisible s = false -> curDetail s = None.
Proof.
  induction 1 as [pageNo|s ev _ IH]; [done|].
  destruct ev as [|record|isSave|v|n]; simpl; try done; exact IH.
Qed.

(** X15: whenever the dialog is closed it holds no record, so that "Add"
    opens an empty dialog, and "Edit" opens it on the record of the row.
    Closing the dialog always empties it; closing it after a save fetches
    the page the table is on, with the state of the current tab, and
    closing it without a save fetches nothing. *)
Theorem dialog_flow (projectId : string) (s : Page) :
  pageReachable toNumber projectId s ->
  (modalVisible s = false ->
   modalVisible (fst (pageStep toNumber s ClickAdd)) = true
   /\ curDetail (fst (pageStep toNumber s ClickAdd)) = None)
  /\ (forall record,
        modalVisible (fst (pageStep toNumber s (ClickEdit record))) = true
        /\ curDetail (fst (pageStep toNumber s (ClickEdit record))) = Some record)
  /\ (forall isSave,
        modalVisible (fst (pageStep toNumber s (CloseModal isSave))) = false
        /\ curDetail (fst (pageStep toNumber s (CloseModal isSave))) = None
        /\ status (fst (pageStep toNumber s (CloseModal isSave))) = status s)
  /\ snd (pageStep toNumber s (CloseModal true))
     = [getIterations
          (<["projectID" := toNumber (IterationPage.projectId s)]>
             (<["state" := iterationStateOf (status s)]>
                (<["pageNo" := pageNo s]> ∅)))]
  /\ snd (pageStep toNumber s (CloseModal false)) = [].
Proof.
  intros Hr. repeat apply conj.
  - intros Hclosed. simpl. split; [done|]. exact (dialog_invariant projectId s Hr Hclosed).
  - done.
  - done.
  - simpl. unfold getList, query. do 3 f_equal.
  - done.
Qed.

End IterationMoreFacts.

Section IterationMoreExamples.

Import IterationPage IterationFlow.

(** The theorem after a row has been edited and the dialog closed: "Add"
    opens an empty dialog. *)
Lemma dialog_flow_witness :
  curDetail
    (fst (pageStep Samples.decimalNumber
            (fst (pageStep Samples.decimalNumber
                    (fst (pageStep Samples.decimalNumber
                            (initialPage "7" (VNum 3)) (ClickEdit Samples.sprint1)))
                    (CloseModal true)))
            ClickAdd))
  = None.
Proof.
  exact (proj2 (proj1 (dialog_flow Samples.decimalNumber "7" _
                         (page_step _ _ _ (CloseModal true)
                            (page_step _ _ _ (ClickEdit Samples.sprint1)
                               (page_initial _ "7" (VNum 3)))))
                  eq_refl)).
Defined.

(** Closing the dialog after a save on page 3 fetches page 3. *)
Example close_after_save_sample :
  snd (pageStep Samples.decimalNumber (initialPage "7" (VNum 3)) (CloseModal true))
  = [getIterations
       (<["projectID" := VNum 7]>
          (<["state" := VStr "UNFILED"]> (<["pageNo" := VNum 3]> ∅)))].
Proof. reflexivity. Qed.

End IterationMoreExamples.
